(** * chroma_learning.py: chroma templates, mini-batch shuffler, data
      preparation, SGD step and training loop, embedded in Rocq.

    Python integers are [Z], numpy integer arrays are [list Z], dictionaries
    are [gmap], exceptions are an explicit [result] type.  Template values
    are exact rationals [Q]; the float tensors of the network are kept
    abstract behind the [Theano] interface. *)

From Stdlib Require Import ZArith QArith Qabs Lia Ascii String.
From stdpp Require Import base option list gmap strings.

Open Scope Z_scope.

(** ** Python exceptions and results *)

Inductive exn :=
  | IndexError | KeyError | ValueError | ZeroDivisionError | KeyboardInterrupt.

(** The outcome of running a piece of code: a value, a raised exception, or
    [OutOfFuel] when a bounded unrolling of a [while] loop was too short. *)
Inductive result (A : Type) :=
  | Ok (a : A)
  | Raise (e : exn)
  | OutOfFuel.
Arguments Ok {A} a.
Arguments Raise {A} e.
Arguments OutOfFuel {A}.

#[global] Instance result_ret : MRet result := λ A a, Ok a.
#[global] Instance result_bind : MBind result := λ A B f m,
  match m with Ok a => f a | Raise e => Raise e | OutOfFuel => OutOfFuel end.
#[global] Instance result_fmap : FMap result := λ A B f m,
  match m with Ok a => Ok (f a) | Raise e => Raise e | OutOfFuel => OutOfFuel end.

Definition is_ok {A} (r : result A) : Prop := ∃ a, r = Ok a.

(** [for x in xs: body], threading the variables the body assigns. *)
Fixpoint for_each {A S} (xs : list A) (body : A → S → result S) (s : S)
    : result S :=
  match xs with
  | [] => Ok s
  | x :: xs' => s' ← body x s; for_each xs' body s'
  end.

(** [[f(x) for x in xs]] where [f] may raise. *)
Fixpoint map_result {A B} (f : A → result B) (xs : list A) : result (list B) :=
  match xs with
  | [] => Ok []
  | x :: xs' => y ← f x; ys ← map_result f xs'; Ok (y :: ys)
  end.

(** [range(n)]: empty when [n <= 0]. *)
Definition range (n : Z) : list Z := seqZ 0 n.

(** [a[i]] for a Python list or a one-dimensional numpy array and an integer
    [i]: negative indices count from the end, anything else out of range
    raises IndexError. *)
Definition getitem {A} (a : list A) (i : Z) : result A :=
  let n := Z.of_nat (length a) in
  let j := if bool_decide (i < 0) then i + n else i in
  if bool_decide (0 ≤ j < n) then
    match a !! Z.to_nat j with Some x => Ok x | None => Raise IndexError end
  else Raise IndexError.

(** [a[idx]] for an integer index array [idx] (numpy fancy indexing). *)
Definition np_take {A} (a : list A) (idx : list Z) : result (list A) :=
  map_result (getitem a) idx.

(** [d[k]] for a dictionary: KeyError when the key is absent. *)
Definition dict_getitem {V} (d : gmap string V) (k : string) : result V :=
  match d !! k with Some v => Ok v | None => Raise KeyError end.

(** [int(v)] for a one-character string [v]: the decimal digits convert,
    every other character raises ValueError. *)
Definition int_of_char (v : ascii) : result Z :=
  let c := Z.of_N (N_of_ascii v) in
  if bool_decide (48 ≤ c ≤ 57) then Ok (c - 48) else Raise ValueError.

(** ** TemplateGenerator *)

(** [np.arange(12)] *)
Definition position_idx : list Z := range 12.

(** [np.ones(12)]; the entries become rationals when [np.array(templates)]
    builds the float matrix. *)
Definition np_ones (n : Z) : list Z := replicate (Z.to_nat n) 1.

(** [qual_array[(position_idx - root_idx) % 12]]; Python's and numpy's [%]
    with a positive divisor is the floor modulus, as is [Z.modulo]. *)
Definition rotate (qual_array : list Z) (root_idx : Z) : result (list Z) :=
  np_take qual_array ((λ p, (p - root_idx) `mod` 12) <$> position_idx).

(** [np.array(templates)]: the integer rows and the row of ones become one
    matrix of floats, here of rationals. *)
Definition np_array (templates : list (list Z)) : list (list Q) :=
  (λ row : list Z, inject_Z <$> row) <$> templates.

(** The sum of a row, [row.sum()]. *)
Definition row_sum (row : list Q) : Q := foldr Qplus 0%Q row.

(** Modelled from the spec: [CT.lp_norm] of dltutorial.chroma_tools is not
    among the sources.  The spec has every produced vector normalised to sum
    to 1 (unit L1 norm): with [p = 1] each row is divided by the sum of the
    absolute values of its entries.  Arithmetic is exact; a row of zeros is
    left as zeros ([x / 0 = 0] in [Q]). *)
Definition normalize_row (row : list Q) : list Q :=
  (λ v, v / row_sum (Qabs <$> row))%Q <$> row.

Definition lp_norm1 (x : list (list Q)) : list (list Q) :=
  normalize_row <$> x.

Section TemplateGenerator.
  (** [CT.QUALITIES] and [CT.QUALITY_MAP] of dltutorial.chroma_tools are not
      among the sources: the ordered vocabulary of quality names and the
      map from a name to its pitch-class bit string are parameters. *)
  Variable QUALITIES : list string.
  Variable QUALITY_MAP : gmap string string.

(** The bit vector of the quality at [qual_idx]:
    [np.array([int(v) for v in CT.QUALITY_MAP[CT.QUALITIES[qual_idx]]])]. *)
Definition quality_array (qual_idx : Z) : result (list Z) :=
  quality ← getitem QUALITIES qual_idx;
  bits ← dict_getitem QUALITY_MAP quality;
  map_result int_of_char (String.list_ascii_of_string bits).

(** The inner loop: [for root_idx in range(12): templates.append(...)]. *)
Definition append_roots (qual_array : list Z) (templates : list (list Z))
    : result (list (list Z)) :=
  for_each (range 12)
    (λ root_idx templates,
       row ← rotate qual_array root_idx; Ok (templates ++ [row]))
    templates.

(** The twelve rows one pass of the outer loop appends. *)
Definition quality_block (qual_idx : Z) : result (list (list Z)) :=
  qual_array ← quality_array qual_idx;
  map_result (rotate qual_array) (range 12).

(** The list [templates] as it stands before normalisation (lines 67-78). *)
Definition raw_templates (num_qualities : Z) : result (list (list Z)) :=
  templates ← for_each (range num_qualities)
    (λ qual_idx templates,
       qual_array ← quality_array qual_idx;
       append_roots qual_array templates)
    [];
  Ok (templates ++ [np_ones 12]).

Definition generate_chroma_templates (num_qualities : Z)
    : result (list (list Q)) :=
  templates ← raw_templates num_qualities;
  Ok (lp_norm1 (np_array templates)).

End TemplateGenerator.

(** The vocabulary is usable when it lists 13 names and every name maps to
    a string of 12 binary digits with at least one pitch class set. *)
Definition bits_ok (bits : string) : bool :=
  let cs := String.list_ascii_of_string bits in
  bool_decide (length cs = 12%nat)
  && forallb (λ c, bool_decide (c = "0"%char) || bool_decide (c = "1"%char)) cs
  && existsb (λ c, bool_decide (c = "1"%char)) cs.

Definition vocabulary_ok (QUALITIES : list string)
    (QUALITY_MAP : gmap string string) : bool :=
  bool_decide (length QUALITIES = 13%nat)
  && forallb (λ q, from_option bits_ok false (QUALITY_MAP !! q)) QUALITIES.

(** The integer a binary digit converts to. *)
Definition bit_of (c : ascii) : Z :=
  if bool_decide (c = "1"%char) then 1 else 0.

(** Modelled from the spec: the tables of dltutorial.chroma_tools, with the
    quality names in the order the docstring of [generate_chroma_templates]
    gives and, for each, the pitch classes of the chord built on root 0. *)
Definition CT_QUALITIES : list string :=
  ["maj"; "min"; "maj7"; "min7"; "7"; "maj6"; "min6"; "dim"; "aug"; "sus4";
   "sus2"; "hdim7"; "dim7"]%string.

Definition CT_QUALITY_MAP : gmap string string :=
  list_to_map
    [("maj", "100010010000"); ("min", "100100010000");
     ("maj7", "100010010001"); ("min7", "100100010010");
     ("7", "100010010010"); ("maj6", "100010010100");
     ("min6", "100100010100"); ("dim", "100100100000");
     ("aug", "100010001000"); ("sus4", "100001010000");
     ("sus2", "101000010000"); ("hdim7", "100100100010");
     ("dim7", "100100100100")]%string.

(** ** BatchSampler *)

(** A value stored in a numpy [int32] cell wraps around modulo 2^32. *)
Definition wrap32 (z : Z) : Z := (z + 2 ^ 31) `mod` 2 ^ 32 - 2 ^ 31.

(** [np.arange(n, dtype=np.int32)] *)
Definition arange_int32 (n : Z) : list Z := wrap32 <$> range n.

(** The variables a suspended [data_shuffler] generator holds between two
    pulls, together with the state of numpy's global random generator, which
    [np.random.shuffle] reads and advances. *)
Record shuffler (rng : Type) := Shuffler {
  sample_idx : list Z;
  read_ptr : Z;
  np_random : rng;
}.
Arguments Shuffler {rng}.
Arguments sample_idx {rng}.
Arguments read_ptr {rng}.
Arguments np_random {rng}.

Section BatchSampler.
  Context {X Y rng : Type}.
  (** [np.random.shuffle]: the reordered array and the advanced generator. *)
  Variable shuffle : list Z → rng → list Z * rng.
  Variable data : list X.
  Variable labels : list Y.
  Variable batch_size : Z.

Definition num_samples : Z := Z.of_nat (length data).

(** Lines 99-101: the state in which the generator enters [while True]. *)
Definition data_shuffler (g : rng) : shuffler rng :=
  Shuffler (arange_int32 num_samples) num_samples g.

(** Lines 107-108. *)
Definition reshuffle (s : shuffler rng) : shuffler rng :=
  let '(idx, g) := shuffle (sample_idx s) (np_random s) in
  Shuffler idx 0 g.

(** The test of line 106. *)
Definition exhausted (s : shuffler rng) : bool :=
  bool_decide (num_samples ≤ read_ptr s).

(** Lines 106-111, one pass of the inner loop: the dataset index read, the
    pair appended to the batch, and the state after [read_ptr += 1]. *)
Definition draw (s : shuffler rng) : result (Z * (X * Y) * shuffler rng) :=
  let s := (if exhausted s then reshuffle s else s) in
  i ← getitem (sample_idx s) (read_ptr s);
  x ← getitem data i;
  y ← getitem labels i;
  Ok (i, (x, y), Shuffler (sample_idx s) (read_ptr s + 1) (np_random s)).

(** Lines 105-111: [while len(x_m) < batch_size], unrolled [fuel] times. *)
Fixpoint fill (fuel : nat) (x_m : list X) (y_m : list Y) (s : shuffler rng)
    : result (list X * list Y * shuffler rng) :=
  if bool_decide (Z.of_nat (length x_m) < batch_size) then
    match fuel with
    | O => OutOfFuel
    | S fuel' =>
        '(_, (x, y), s') ← draw s;
        fill fuel' (x_m ++ [x]) (y_m ++ [y]) s'
    end
  else Ok (x_m, y_m, s).

(** One pull of the generator: lines 104-112 up to the [yield]. *)
Definition next (s : shuffler rng)
    : result (list X * list Y * shuffler rng) :=
  fill (Z.to_nat batch_size) [] [] s.

(** [n] consecutive single-index draws: the indices read, with the pairs
    they select, and the state left. *)
Fixpoint draws (n : nat) (s : shuffler rng)
    : result (list (Z * (X * Y)) * shuffler rng) :=
  match n with
  | O => Ok ([], s)
  | S n' =>
      '(i, xy, s') ← draw s;
      '(rest, s'') ← draws n' s';
      Ok ((i, xy) :: rest, s'')
  end.

(** The state in which a draw reads its index: reshuffled first when the
    cursor is at the end. *)
Definition refreshed (s : shuffler rng) : shuffler rng :=
  if exhausted s then reshuffle s else s.

(** What every state of a running generator satisfies: the index array is
    a reordering of [0 .. num_samples-1] and the cursor is within it. *)
Definition shuffler_inv (s : shuffler rng) : Prop :=
  sample_idx s ≡ₚ range num_samples ∧ 0 ≤ read_ptr s ≤ num_samples.

End BatchSampler.

(** ** DatasetPreparer *)

(** Line 138: [[label_map.get(l, -1) for l in labels]]. *)
Definition mapped_labels (label_map : gmap string Z) (labels : list string)
    : list Z :=
  (λ l, default (-1) (label_map !! l)) <$> labels.

(** Line 139: [y_true > 0]. *)
Definition valid_idx (y_true : list Z) : list bool :=
  (λ y, bool_decide (0 < y)) <$> y_true.

(** [a[mask]] for a boolean mask over the first axis: the rows where the
    mask is set; a mask of another length raises IndexError. *)
Definition np_mask {A} (a : list A) (mask : list bool) : result (list A) :=
  if bool_decide (length a = length mask) then
    Ok (fst <$> filter (λ p, snd p = true) (zip a mask))
  else Raise IndexError.

(** [a.max()]: ValueError on an array without elements. *)
Definition np_max (a : list Z) : result Z :=
  match a with
  | [] => Raise ValueError
  | x :: a' => Ok (foldr Z.max x a')
  end.

(** What [prepare_training_data] hands back: the arrays the returned
    generator is bound to, its batch size, and the statistics. *)
Record prepared (pooled stat : Type) := Prepared {
  train_data : list pooled;
  train_targets : list (list Q);
  train_batch_size : Z;
  stats_mu : stat;
  stats_sigma : stat;
}.
Arguments Prepared {pooled stat}.
Arguments train_data {pooled stat}.
Arguments train_targets {pooled stat}.
Arguments train_batch_size {pooled stat}.
Arguments stats_mu {pooled stat}.
Arguments stats_sigma {pooled stat}.

Section DatasetPreparer.
  Context {feature pooled stat : Type}.
  Variable QUALITIES : list string.
  Variable QUALITY_MAP : gmap string string.
  (** [CT.cqt_pool] is not among the sources; it may raise. *)
  Variable cqt_pool : list feature → result (list pooled).
  (** [data.mean(axis=0)] and [data.std(axis=0)], float reductions. *)
  Variable np_mean : list pooled → stat.
  Variable np_std : list pooled → stat.

(** Lines 138-141: the rows kept and their mapped labels. *)
Definition filter_rows (data : list feature) (labels : list string)
    (label_map : gmap string Z) : result (list feature * list Z) :=
  let y_true := mapped_labels label_map labels in
  let valid := valid_idx y_true in
  data' ← np_mask data valid;
  y_true' ← np_mask y_true valid;
  Ok (data', y_true').

(** Lines 137-148, with the two loaded arrays as arguments. *)
Definition prepare_training_data (data : list feature) (labels : list string)
    (label_map : gmap string Z) (batch_size : Z)
    : result (prepared pooled stat) :=
  '(data, y_true) ← filter_rows data labels label_map;
  data ← cqt_pool data;
  let mu := np_mean data in
  let sigma := np_std data in
  y_max ← np_max y_true;
  (* [int(y_true.max() / 12)]: on integers Python 2's [/] is the floor
     division. *)
  let num_qualities := y_max `div` 12 in
  templates ← generate_chroma_templates QUALITIES QUALITY_MAP num_qualities;
  targets ← np_take templates y_true;
  Ok (Prepared data targets batch_size mu sigma).

End DatasetPreparer.

(** ** LinearChromaModel *)

(** The tensor operations the script takes from Theano and numpy.  Floats
    and their arithmetic stay abstract; [T_grad f w] is the gradient at [w]
    of the scalar expression [f], as the differentiation engine supplies
    it. *)
Class Theano (tensor scalar : Type) := {
  T_sub : tensor → tensor → tensor;
  T_div : tensor → tensor → tensor;
  T_add : tensor → tensor → tensor;
  T_dot : tensor → tensor → tensor;
  T_tanh : tensor → tensor;
  T_softmax : tensor → tensor;
  T_pow : tensor → scalar → tensor;
  T_sum_axis1 : tensor → tensor;
  T_mean : tensor → scalar;
  T_scale : scalar → tensor → tensor;
  T_grad : (tensor → scalar) → tensor → tensor;
  dimshuffle_x0 : tensor → tensor;
  two : scalar;
  s_zero : scalar;
  T_zeros : Z → tensor;
  T_ones : Z → tensor;
}.

(** The values of the Theano shared variables, keyed by variable name. *)
Abbreviation shared tensor := (gmap string tensor).

Section LinearChromaModel.
  Context {tensor scalar : Type} `{!Theano tensor scalar, !Inhabited tensor}.

(** Lines 172-181: the output of the network on a batch. *)
Definition z_output (s : shared tensor) (x_input : tensor) : tensor :=
  let x_input := T_sub x_input (dimshuffle_x0 (s !!! "mu"%string)) in
  let x_input := T_div x_input (dimshuffle_x0 (s !!! "sigma"%string)) in
  T_softmax
    (T_tanh (T_add (T_dot x_input (s !!! "weights0"%string))
                   (s !!! "bias0"%string))).

(** Lines 186-188. *)
Definition scalar_loss (s : shared tensor) (x_input y_target : tensor) : scalar :=
  let squared_distance :=
    T_sum_axis1 (T_pow (T_sub (z_output s x_input) y_target) two) in
  T_mean squared_distance.

(** The variables line 196 loops over. *)
Definition trainable : list string := ["weights0"; "bias0"]%string.

(** Lines 194-202: the new value of every trainable variable, each an
    expression over the values in [s]. *)
Definition updates (s : shared tensor) (x_input y_target : tensor) (eta : scalar)
    : gmap string tensor :=
  foldl
    (λ updates param,
       let gparam :=
         T_grad (λ w, scalar_loss (<[param := w]> s) x_input y_target)
                (s !!! param) in
       <[param := T_sub (s !!! param) (T_scale eta gparam)]> updates)
    ∅ trainable.

(** Lines 209-212: one call of the compiled function.  Theano evaluates the
    outputs and all update expressions on the current shared values, then
    stores the updates. *)
Definition objective_fx (x_input y_target : tensor) (eta : scalar)
    (s : shared tensor) : scalar * shared tensor :=
  (scalar_loss s x_input y_target, updates s x_input y_target eta ∪ s).

(** Lines 172-180 and 216-217: the shared variables as created, with
    [weights0_init] the random draw of line 178, and the names under which
    [network_params] returns them. *)
Definition build_chroma_transform (weights0_init : tensor)
    : shared tensor * list string :=
  (<["bias0"%string := T_zeros 12]>
     (<["weights0"%string := weights0_init]>
        (<["sigma"%string := T_ones 90]>
           (<["mu"%string := T_zeros 90]> ∅))),
   trainable ++ ["mu"; "sigma"]%string).

(** Lines 293-294 of [main]: [params[name].set_value(stats[name])]. *)
Definition set_statistics (mu sigma : tensor) (s : shared tensor) : shared tensor :=
  <["sigma"%string := sigma]> (<["mu"%string := mu]> s).

(** Lines 270-272 of [save_parameters]: the value of every listed
    variable, by name. *)
Definition param_values (params : list string) (s : shared tensor)
    : gmap string tensor :=
  foldl (λ values name, <[name := s !!! name]> values) ∅ params.

End LinearChromaModel.

(** ** TrainingLoop *)

(** Where in the loop body a keyboard interrupt can land: before the batch
    is pulled, between the pull and the step, or after the loss is stored
    and before [n_iter += 1]. *)
Inductive point := AtPull | AtStep | AtIncrement.

#[global] Instance point_eq_dec : EqDecision point.
Proof. solve_decision. Defined.

(** The interrupt of a run, if any: the value of [n_iter] in the iteration
    it lands in, and the point of the body. *)
Definition sigint : Type := option (nat * point).

Definition lands (sig : sigint) (n_iter : Z) (p : point) : bool :=
  match sig with
  | Some (k, q) => bool_decide (Z.of_nat k = n_iter ∧ q = p)
  | None => false
  end.

(** Lines printed to the console (the wall-clock stamp is left out). *)
Inductive line (loss : Type) :=
  | Progress (n_iter : Z) (l : loss)
  | StoppingEarly.
Arguments Progress {loss}.
Arguments StoppingEarly {loss}.

(** [a[i] = v] for a numpy array and [0 <= i]. *)
Definition setitem {A} (a : list A) (i : Z) (v : A) : result (list A) :=
  if bool_decide (0 ≤ i < Z.of_nat (length a)) then Ok (<[Z.to_nat i := v]> a)
  else Raise IndexError.

(** The local variables of [train_network] and the objects it mutates. *)
Record train_state (gen store loss : Type) := TrainState {
  train_loss : list loss;
  n_iter : Z;
  shuffler_state : gen;
  params : store;
  console : list (line loss);
}.
Arguments TrainState {gen store loss}.
Arguments train_loss {gen store loss}.
Arguments n_iter {gen store loss}.
Arguments shuffler_state {gen store loss}.
Arguments params {gen store loss}.
Arguments console {gen store loss}.

Section TrainingLoop.
  Context {gen batch store loss rate : Type}.
  (** [shuffler.next()] *)
  Variable shuffler_next : gen → result (batch * gen).
  (** [objective_fx(x_m, y_m, learning_rate)] on the shared parameters. *)
  Variable objective_fx : batch → rate → store → result (loss * store).
  (** The entries of [np.zeros]. *)
  Variable zero : loss.
  Variable sig : sigint.
  Variable learning_rate : rate.
  Variable num_iterations : Z.
  Variable print_frequency : Z.

#[local] Abbreviation state := (train_state gen store loss).

(** Lines 248-253: one pass of the loop body.  The state reached is
    returned also when the pass is cut short by an exception. *)
Definition body (st : state) : state * result () :=
  let n := n_iter st in
  if lands sig n AtPull then (st, Raise KeyboardInterrupt) else
  match shuffler_next (shuffler_state st) with
  | Raise e => (st, Raise e)
  | OutOfFuel => (st, OutOfFuel)
  | Ok (b, g) =>
    let st := TrainState (train_loss st) n g (params st) (console st) in
    if lands sig n AtStep then (st, Raise KeyboardInterrupt) else
    match objective_fx b learning_rate (params st) with
    | Raise e => (st, Raise e)
    | OutOfFuel => (st, OutOfFuel)
    | Ok (l, p) =>
      let st := TrainState (train_loss st) n g p (console st) in
      match setitem (train_loss st) n l with
      | Raise e => (st, Raise e)
      | OutOfFuel => (st, OutOfFuel)
      | Ok tl =>
        let st := TrainState tl n g p (console st) in
        if lands sig n AtIncrement then (st, Raise KeyboardInterrupt) else
        if bool_decide (print_frequency = 0) then (st, Raise ZeroDivisionError)
        else
          let out :=
            if bool_decide (n `mod` print_frequency = 0)
            then console st ++ [Progress n l] else console st in
          (TrainState tl (n + 1) g p out, Ok ())
      end
    end
  end.

(** Line 247: [while n_iter < num_iterations], unrolled [fuel] times. *)
Fixpoint while_loop (fuel : nat) (st : state) : state * result () :=
  if bool_decide (n_iter st < num_iterations) then
    match fuel with
    | O => (st, OutOfFuel)
    | S fuel' =>
        match body st with
        | (st', Ok _) => while_loop fuel' st'
        | stop => stop
        end
    end
  else (st, Ok ()).

(** Lines 244-257.  [np.zeros] refuses a negative length; a
    KeyboardInterrupt leaves the loop through the handler, any other
    exception leaves the function. *)
Definition train_network (shuffler0 : gen) (params0 : store)
    : state * result (list loss) :=
  let st0 :=
    TrainState (replicate (Z.to_nat num_iterations) zero) 0
               shuffler0 params0 [] in
  if bool_decide (num_iterations < 0) then (st0, Raise ValueError) else
  match while_loop (Z.to_nat num_iterations) st0 with
  | (st, Ok _) => (st, Ok (take (Z.to_nat (n_iter st)) (train_loss st)))
  | (st, Raise KeyboardInterrupt) =>
      let st := TrainState (train_loss st) (n_iter st) (shuffler_state st)
                           (params st) (console st ++ [StoppingEarly]) in
      (st, Ok (take (Z.to_nat (n_iter st)) (train_loss st)))
  | (st, Raise e) => (st, Raise e)
  | (st, OutOfFuel) => (st, OutOfFuel)
  end.

(** The run without interrupts, step by step: the batch pulled, the loss
    returned and the state left by each of the first [n] iterations. *)
Fixpoint iterate (n : nat) (g : gen) (p : store)
    : result (list (batch * store * loss) * (gen * store)) :=
  match n with
  | O => Ok ([], (g, p))
  | S n' =>
      '(b, g') ← shuffler_next g;
      '(l, p') ← objective_fx b learning_rate p;
      '(rest, final) ← iterate n' g' p';
      Ok ((b, p, l) :: rest, final)
  end.

End TrainingLoop.

(** Whether the interrupt lands in the iteration that starts with this
    value of [n_iter]. *)
Definition interrupted_at (sig : sigint) (n_iter : Z) : bool :=
  match sig with
  | Some (k, _) => bool_decide (Z.of_nat k = n_iter)
  | None => false
  end.

(** The iterations that run to their end: all that were requested, or
    those before the one the interrupt lands in. *)
Definition completed (sig : sigint) (num_iterations : Z) : Z :=
  match sig with
  | Some (k, _) => Z.min num_iterations (Z.of_nat k)
  | None => num_iterations
  end.

(** ** The whole run *)

Section Main.
  Context {feature pooled tensor scalar rng : Type}.
  Context `{!Theano tensor scalar, !Inhabited tensor}.
  Variable QUALITIES : list string.
  Variable QUALITY_MAP : gmap string string.
  Variable cqt_pool : list feature → result (list pooled).
  Variable np_mean : list pooled → tensor.
  Variable np_std : list pooled → tensor.
  Variable shuffle : list Z → rng → list Z * rng.
  (** [np.array(x_m)] and [np.array(y_m)] of line 112. *)
  Variable np_array_x : list pooled → tensor.
  Variable np_array_y : list (list Q) → tensor.

(** [shuffler.next()] of the generator [prepare_training_data] returned. *)
Definition pull (prep : prepared pooled tensor) (s : shuffler rng)
    : result (tensor * tensor * shuffler rng) :=
  '(x_m, y_m, s') ← next shuffle (train_data prep) (train_targets prep)
                         (train_batch_size prep) s;
  Ok (np_array_x x_m, np_array_y y_m, s').

(** The compiled function as [train_network] calls it. *)
Definition step (b : tensor * tensor) (eta : scalar) (s : shared tensor)
    : result (scalar * shared tensor) :=
  Ok (objective_fx (fst b) (snd b) eta s).

(** Lines 287-302: the loss history and the mapping written to disk.
    [weights0_init] and [g] are the random weights and the state of the
    random generator after they were drawn. *)
Definition main (data : list feature) (labels : list string)
    (label_map : gmap string Z)
    (max_iterations batch_size print_frequency : Z) (learning_rate : scalar)
    (weights0_init : tensor) (g : rng) (sig : sigint)
    : result (list scalar * gmap string tensor) :=
  let '(s, names) := build_chroma_transform weights0_init in
  prep ← prepare_training_data QUALITIES QUALITY_MAP cqt_pool np_mean np_std
           data labels label_map batch_size;
  let s := set_statistics (stats_mu prep) (stats_sigma prep) s in
  let sh := data_shuffler (train_data prep) g in
  match train_network (pull prep) step s_zero sig learning_rate
          max_iterations print_frequency sh s with
  | (st, Ok loss) =>
      _ ← getitem loss (-1);
      Ok (loss, param_values names (params st))
  | (_, Raise e) => Raise e
  | (_, OutOfFuel) => OutOfFuel
  end.

End Main.

(** ** Small instances for examples *)

(** A generator that hands out 0, 1, 2, ... as batches, and a step that
    returns batch plus parameter as the loss and increments the
    parameter. *)
Definition counter_next (g : nat) : result (nat * nat) := Ok (g, S g).

Definition counter_step (b : nat) (_ : ()) (s : nat) : result (nat * nat) :=
  Ok ((b + s)%nat, S s).

(** A shuffle that reverses the index array and counts its calls. *)
Definition reversing_shuffle (idx : list Z) (calls : nat) : list Z * nat :=
  (reverse idx, S calls).

(** Integers standing in for tensors and scalars, with a forward
    difference for the gradient, so that the model runs on examples. *)
Definition toy_theano : Theano Z Z := {|
  T_sub := Z.sub;
  T_div := Z.div;
  T_add := Z.add;
  T_dot := Z.mul;
  T_tanh := id;
  T_softmax := id;
  T_pow := Z.pow;
  T_sum_axis1 := id;
  T_mean := id;
  T_scale := Z.mul;
  T_grad := λ f w, f (w + 1) - f w;
  dimshuffle_x0 := id;
  two := 2;
  s_zero := 0;
  T_zeros := λ _, 0;
  T_ones := λ _, 1;
|}.

(** Batches [(g + 2, 1)] for [g = 0, 1, 2, ...]. *)
Definition toy_batches (g : nat) : result (Z * Z * nat) :=
  Ok (Z.of_nat g + 2, 1, S g).

(** The shared variables of the toy model, with initial weight 3. *)
Definition toy_params : shared Z :=
  (build_chroma_transform (Theano0 := toy_theano) 3).1.

(** The templates of the major triads alone, and the first of them (C
    major), as [generate_chroma_templates] computes them. *)
Definition templates_maj : list (list Q) :=
  Eval vm_compute in
    match generate_chroma_templates CT_QUALITIES CT_QUALITY_MAP 1 with
    | Ok templates => templates
    | _ => []
    end.

Definition template_C_maj : list Q :=
  Eval vm_compute in default [] (templates_maj !! 0%nat).

(** A label map that sends a chord to index 0, as the map files do for the
    first root of the first quality. *)
Definition two_label_map : gmap string Z :=
  <["C:maj"%string := 0]> {["C:min"%string := 12]}.

(** ** Notions used to state further properties *)

(** The characters [int] converts: the decimal digits. *)
Definition is_digit (c : ascii) : Prop :=
  48 ≤ Z.of_N (N_of_ascii c) ≤ 57.

Section BatchStream.
  Context {X Y rng : Type}.
  Variable shuffle : list Z → rng → list Z * rng.
  Variable data : list X.
  Variable labels : list Y.
  Variable batch_size : Z.

(** [k] consecutive pulls of the generator, the batches laid end to end. *)
Fixpoint pulls (k : nat) (s : shuffler rng)
    : result (list X * list Y * shuffler rng) :=
  match k with
  | O => Ok ([], [], s)
  | S k' =>
      '(x_m, y_m, s') ← next shuffle data labels batch_size s;
      '(xs, ys, s'') ← pulls k' s';
      Ok (x_m ++ xs, y_m ++ ys, s'')
  end.

End BatchStream.

(** The progress lines a list of losses gives rise to when its first
    entry is the loss of iteration [n]: one line for every iteration index
    that the print frequency divides. *)
Fixpoint progress_from {loss} (print_frequency n : Z) (hist : list loss)
    : list (line loss) :=
  match hist with
  | [] => []
  | l :: rest =>
      (if bool_decide (n `mod` print_frequency = 0)
       then [Progress n l] else [])
      ++ progress_from print_frequency (n + 1) rest
  end.

Definition progress_lines {loss} (print_frequency : Z) (hist : list loss)
    : list (line loss) :=
  progress_from print_frequency 0 hist.

Section InterruptedState.
  Context {gen batch store loss rate : Type}.
  Variable shuffler_next : gen → result (batch * gen).
  Variable objective_fx : batch → rate → store → result (loss * store).
  Variable learning_rate : rate.

(** The generator state [g] and parameters [p] an interrupt leaves when
    it lands at point [q] of an iteration that started from [gk] and [pk]:
    nothing moved before the pull; the batch consumed between pull and
    step; the batch consumed and the update applied after the step. *)
Definition left_at (q : point) (gk : gen) (pk : store) (g : gen) (p : store)
    : Prop :=
  match q with
  | AtPull => g = gk ∧ p = pk
  | AtStep => (∃ b, shuffler_next gk = Ok (b, g)) ∧ p = pk
  | AtIncrement =>
      ∃ b l, shuffler_next gk = Ok (b, g)
             ∧ objective_fx b learning_rate pk = Ok (l, p)
  end.

(** Where a run with interrupt [sig] leaves the generator and the
    parameters, given the state [(gk, pk)] reached by the iterations that
    ran to their end. *)
Definition left_by (sig : sigint) (num_iterations : Z)
    (gk : gen) (pk : store) (g : gen) (p : store) : Prop :=
  match sig with
  | Some (k, q) =>
      if bool_decide (Z.of_nat k < num_iterations)
      then left_at q gk pk g p
      else g = gk ∧ p = pk
  | None => g = gk ∧ p = pk
  end.

End InterruptedState.

(** A complete toy run: two rows, the second labelled with the no-chord
    index of a one-quality vocabulary, integer tensors, no pooling. *)
Definition toy_main (max_iterations : Z) (sig : sigint)
    : result (list Z * gmap string Z) :=
  main (Theano0 := toy_theano) CT_QUALITIES CT_QUALITY_MAP
    (λ d : list Z, Ok d) (λ d, foldr Z.add 0 d) (λ _, 1)
    reversing_shuffle (λ x_m, foldr Z.add 0 x_m) (λ _, 1)
    [10; 20] ["C:maj"; "C:min"]%string two_label_map
    max_iterations 1 1 1 3 0%nat sig.

(** * Properties *)

(** ** Results, loops and indexing *)

Lemma bind_Ok_l {A B} (a : A) (f : A → result B) : Ok a ≫= f = f a.
Proof. reflexivity. Qed.

Lemma bind_ok {A B} (m : result A) (f : A → result B) (b : B) :
  m ≫= f = Ok b ↔ ∃ a, m = Ok a ∧ f a = Ok b.
Proof.
  destruct m as [a|e|]; simpl; split; try (intros [a' [? ?]]); try done.
  - eauto.
  - congruence.
Qed.

Lemma getitem_nonneg {A} (a : list A) (i : Z) (x : A) :
  0 ≤ i → getitem a i = Ok x ↔ a !! Z.to_nat i = Some x.
Proof.
  intros Hi. unfold getitem. cbv zeta.
  rewrite (bool_decide_eq_false_2 (i < 0)) by lia.
  destruct (a !! Z.to_nat i) as [y|] eqn:Hy.
  - apply lookup_lt_Some in Hy as Hlt.
    rewrite bool_decide_eq_true_2 by lia. split; congruence.
  - apply lookup_ge_None in Hy.
    case_bool_decide; [lia|]. split; congruence.
Qed.

Lemma getitem_ok_lt {A} (a : list A) (i : Z) :
  0 ≤ i < Z.of_nat (length a) → ∃ x, getitem a i = Ok x.
Proof.
  intros Hi. destruct (lookup_lt_is_Some_2 a (Z.to_nat i)) as [x Hx]; [lia|].
  exists x. apply getitem_nonneg; [lia|done].
Qed.

Lemma getitem_ok_bound {A} (a : list A) (i : Z) (x : A) :
  0 ≤ i → getitem a i = Ok x → i < Z.of_nat (length a).
Proof.
  intros Hi Hx. apply getitem_nonneg in Hx; [|done].
  apply lookup_lt_Some in Hx. lia.
Qed.

Lemma map_result_ok {A B} (f : A → result B) (xs : list A) (ys : list B) :
  map_result f xs = Ok ys ↔ Forall2 (λ x y, f x = Ok y) xs ys.
Proof.
  revert ys. induction xs as [|x xs IH]; intros ys; simpl.
  - split; [intros [= <-]; constructor | by inversion 1].
  - rewrite bind_ok. split.
    + intros (y & Hy & Hrest). apply bind_ok in Hrest as (ys' & Hys & [= <-]).
      constructor; [done | by apply IH].
    + inversion 1 as [|? y ? ys' Hy Hys]; subst.
      exists y. split; [done|]. apply bind_ok. exists ys'.
      split; [by apply IH | done].
Qed.

Lemma map_result_length {A B} (f : A → result B) xs ys :
  map_result f xs = Ok ys → length ys = length xs.
Proof. intros H%map_result_ok. by apply Forall2_length in H. Qed.

Lemma map_result_lookup {A B} (f : A → result B) xs ys i x :
  map_result f xs = Ok ys → xs !! i = Some x →
  ∃ y, ys !! i = Some y ∧ f x = Ok y.
Proof.
  intros H%map_result_ok Hx.
  destruct (Forall2_lookup_l _ _ _ _ _ H Hx) as (y & ? & ?). eauto.
Qed.

Lemma map_result_total {A B} (f : A → result B) xs :
  Forall (λ x, is_ok (f x)) xs → is_ok (map_result f xs).
Proof.
  induction 1 as [|x xs [y Hy] _ [ys Hys]]; [by exists []|].
  exists (y :: ys). simpl. by rewrite Hy, Hys.
Qed.

Lemma map_result_pure {A B} (f : A → result B) (g : A → B) xs :
  Forall (λ x, f x = Ok (g x)) xs → map_result f xs = Ok (g <$> xs).
Proof.
  induction 1 as [|x xs Hx _ IH]; [done|]. simpl. by rewrite Hx, IH.
Qed.

(** A loop that appends what its body computes collects the results of the
    body over the whole range. *)
Lemma for_each_append {A B} (f : A → result (list B)) xs (acc : list B) :
  for_each xs (λ x acc, ys ← f x; Ok (acc ++ ys)) acc
  = (yss ← map_result f xs; Ok (acc ++ concat yss)).
Proof.
  revert acc. induction xs as [|x xs IH]; intros acc; simpl.
  - by rewrite app_nil_r.
  - destruct (f x) as [ys|e|]; simpl; [|done..].
    rewrite IH. destruct (map_result f xs) as [yss|e|]; simpl; [|done..].
    by rewrite app_assoc.
Qed.

Lemma for_each_ext {A S} (f g : A → S → result S) xs s :
  (∀ x s, f x s = g x s) → for_each xs f s = for_each xs g s.
Proof.
  intros Hfg. revert s. induction xs as [|x xs IH]; intros s; simpl; [done|].
  rewrite Hfg. destruct (g x s); simpl; auto.
Qed.

Lemma lookup_range (n : Z) (i : Z) :
  0 ≤ i < n → range n !! Z.to_nat i = Some i.
Proof.
  intros Hi. unfold range. rewrite lookup_seqZ_lt by lia. f_equal. lia.
Qed.

Lemma length_range (n : Z) : length (range n) = Z.to_nat n.
Proof. apply length_seqZ. Qed.

Lemma lookup_concat_blocks {A} (n : nat) (blocks : list (list A)) q r b :
  Forall (λ b, length b = n) blocks →
  blocks !! q = Some b → (r < n)%nat →
  concat blocks !! (n * q + r)%nat = b !! r.
Proof.
  intros Hall. revert q. induction Hall as [|b0 bs Hb0 _ IH]; intros q Hq Hr.
  - done.
  - destruct q as [|q]; simpl in *.
    + injection Hq as ->. rewrite Nat.mul_0_r. simpl.
      by rewrite lookup_app_l by lia.
    + rewrite lookup_app_r by lia.
      replace (n * S q + r - length b0)%nat with (n * q + r)%nat by lia.
      by apply IH.
Qed.

Lemma length_concat_blocks {A} (n : nat) (blocks : list (list A)) :
  Forall (λ b, length b = n) blocks →
  length (concat blocks) = (n * length blocks)%nat.
Proof.
  induction 1 as [|b bs Hb _ IH]; simpl; [lia|].
  rewrite length_app, IH. lia.
Qed.

Lemma for_each_append1 {A B} (f : A → result B) xs (acc : list B) :
  for_each xs (λ x acc, y ← f x; Ok (acc ++ [y])) acc
  = (ys ← map_result f xs; Ok (acc ++ ys)).
Proof.
  revert acc. induction xs as [|x xs IH]; intros acc; simpl.
  - by rewrite app_nil_r.
  - destruct (f x) as [y|e|]; simpl; [|done..].
    rewrite IH. destruct (map_result f xs) as [ys|e|]; simpl; [|done..].
    by rewrite <- app_assoc.
Qed.

(** ** TemplateGenerator *)

Lemma rotate_length qual_array root_idx row :
  rotate qual_array root_idx = Ok row → length row = 12%nat.
Proof.
  intros H. apply map_result_length in H. by rewrite H, length_fmap.
Qed.

Lemma rotate_lookup qual_array root_idx row p :
  rotate qual_array root_idx = Ok row → 0 ≤ p < 12 →
  ∃ v, row !! Z.to_nat p = Some v
       ∧ qual_array !! Z.to_nat ((p - root_idx) `mod` 12) = Some v.
Proof.
  intros H Hp.
  destruct (map_result_lookup _ _ _ (Z.to_nat p) ((p - root_idx) `mod` 12) H)
    as (v & Hv & Hget).
  { rewrite list_lookup_fmap. unfold position_idx.
    by rewrite lookup_range. }
  exists v. split; [done|].
  apply getitem_nonneg in Hget; [done|].
  by apply Z.mod_pos_bound.
Qed.

Lemma rotate_total qual_array root_idx :
  (12 ≤ length qual_array)%nat → is_ok (rotate qual_array root_idx).
Proof.
  intros Hlen. apply map_result_total, Forall_fmap, Forall_forall.
  intros p _. simpl. apply getitem_ok_lt.
  pose proof (Z.mod_pos_bound (p - root_idx) 12). lia.
Qed.

Lemma rotate_period qual_array root_idx :
  rotate qual_array (root_idx + 12) = rotate qual_array root_idx.
Proof.
  unfold rotate. f_equal. apply list_fmap_ext. intros _ p _.
  replace (p - (root_idx + 12)) with (p - root_idx + (-1) * 12) by lia.
  apply Z_mod_plus_full.
Qed.

Lemma rotate_0 qual_array :
  length qual_array = 12%nat → rotate qual_array 0 = Ok qual_array.
Proof.
  intros Hlen.
  do 13 (destruct qual_array as [|? qual_array]; try discriminate Hlen).
  reflexivity.
Qed.

(** *** Exact arithmetic of the normalisation *)

Lemma row_sum_nonneg (row : list Q) :
  Forall (λ v, 0 <= v)%Q row → (0 <= row_sum row)%Q.
Proof.
  induction 1 as [|v row Hv _ IH]; simpl; [apply Qle_refl|].
  replace 0%Q with (0 + 0)%Q by reflexivity. by apply Qplus_le_compat.
Qed.

Lemma row_sum_pos (row : list Q) :
  Forall (λ v, 0 <= v)%Q row → Exists (λ v, 0 < v)%Q row →
  (0 < row_sum row)%Q.
Proof.
  intros Hall Hex. induction Hex as [v row Hv|v row _ IH]; simpl;
    inversion Hall as [|? ? Hv0 Hrest]; subst.
  - apply Qlt_le_trans with (v + 0)%Q.
    + by rewrite Qplus_0_r.
    + apply Qplus_le_compat; [apply Qle_refl | by apply row_sum_nonneg].
  - apply Qlt_le_trans with (0 + row_sum row)%Q.
    + rewrite Qplus_0_l. by apply IH.
    + apply Qplus_le_compat; [done | apply Qle_refl].
Qed.

Lemma row_sum_div (row : list Q) (d : Q) :
  (row_sum ((λ v, v / d) <$> row) == row_sum row / d)%Q.
Proof.
  induction row as [|v row IH]; simpl.
  - unfold Qdiv. by rewrite Qmult_0_l.
  - rewrite IH. unfold Qdiv. by rewrite Qmult_plus_distr_l.
Qed.

Lemma Qabs_inject_nonneg (row : list Z) :
  Forall (λ z, 0 ≤ z) row →
  Qabs <$> (inject_Z <$> row) = inject_Z <$> row.
Proof.
  induction 1 as [|z row Hz _ IH]; [done|]. rewrite !fmap_cons, IH. f_equal.
  unfold inject_Z, Qabs. f_equal. by apply Z.abs_eq.
Qed.

(** A row of non-negative integers that is not all zeros is normalised to
    non-negative entries of sum 1. *)
Lemma normalize_row_unit (row : list Z) :
  Forall (λ z, 0 ≤ z) row → Exists (λ z, 0 < z) row →
  Forall (λ v, 0 <= v)%Q (normalize_row (inject_Z <$> row))
  ∧ (row_sum (normalize_row (inject_Z <$> row)) == 1)%Q.
Proof.
  intros Hall Hex. unfold normalize_row.
  rewrite Qabs_inject_nonneg by done.
  set (total := row_sum (inject_Z <$> row)).
  assert (Hq : Forall (λ v, 0 <= v)%Q (inject_Z <$> row)).
  { apply Forall_fmap. eapply Forall_impl; [done|]. intros z Hz. simpl.
    change 0%Q with (inject_Z 0). by rewrite <- Zle_Qle. }
  assert (Hpos : (0 < total)%Q).
  { apply row_sum_pos; [done|]. apply Exists_fmap.
    eapply Exists_impl; [done|]. intros z Hz. simpl.
    change 0%Q with (inject_Z 0). by rewrite <- Zlt_Qlt. }
  split.
  - apply Forall_fmap. eapply Forall_impl; [exact Hq|]. intros v Hv. simpl.
    apply Qle_shift_div_l; [done|]. by rewrite Qmult_0_l.
  - rewrite row_sum_div. unfold Qdiv. apply Qmult_inv_r.
    intros Hz. rewrite Hz in Hpos. by apply Qlt_irrefl in Hpos.
Qed.

(** *** The vocabulary *)

Lemma bits_ok_array bits :
  bits_ok bits = true →
  ∃ qa, map_result int_of_char (String.list_ascii_of_string bits) = Ok qa
        ∧ length qa = 12%nat
        ∧ Forall (λ z, 0 ≤ z) qa ∧ Exists (λ z, 0 < z) qa.
Proof.
  unfold bits_ok. intros [[Hlen Hbin]%andb_prop Hone]%andb_prop.
  apply bool_decide_eq_true in Hlen.
  set (cs := String.list_ascii_of_string bits) in *.
  exists (bit_of <$> cs). split; [|split; [|split]].
  - apply map_result_pure, Forall_forall. intros c Hc.
    rewrite forallb_forall in Hbin. apply list_elem_of_In, Hbin in Hc.
    apply orb_prop in Hc as [->%bool_decide_eq_true| ->%bool_decide_eq_true];
      reflexivity.
  - by rewrite length_fmap.
  - apply Forall_fmap, Forall_forall. intros c _. unfold bit_of. simpl.
    case_bool_decide; lia.
  - apply existsb_exists in Hone as (c & Hc & ->%bool_decide_eq_true).
    apply Exists_fmap, Exists_exists. exists "1"%char.
    split; [by apply list_elem_of_In | done].
Qed.

Lemma rotate_Forall (P : Z → Prop) qual_array root_idx row :
  rotate qual_array root_idx = Ok row → Forall P qual_array → Forall P row.
Proof.
  intros H%map_result_ok Hqa. apply Forall_forall. intros v Hv.
  apply list_elem_of_lookup in Hv as [i Hi].
  destruct (Forall2_lookup_r _ _ _ _ _ H Hi) as (j & Hj & Hget).
  apply list_lookup_fmap_Some in Hj as (p & -> & _).
  apply getitem_nonneg in Hget; [|by apply Z.mod_pos_bound].
  rewrite Forall_forall in Hqa. apply Hqa.
  apply list_elem_of_lookup. eauto.
Qed.

Lemma rotate_Exists (P : Z → Prop) qual_array root_idx row :
  length qual_array = 12%nat →
  rotate qual_array root_idx = Ok row → Exists P qual_array → Exists P row.
Proof.
  intros Hlen Hrot (v & Hv & HP)%Exists_exists.
  apply list_elem_of_lookup in Hv as [j Hj].
  apply lookup_lt_Some in Hj as Hlt.
  set (p := (Z.of_nat j + root_idx) `mod` 12).
  destruct (rotate_lookup _ _ _ p Hrot) as (w & Hw & Hbase).
  { by apply Z.mod_pos_bound. }
  assert (Hidx : (p - root_idx) `mod` 12 = Z.of_nat j).
  { unfold p. rewrite Zminus_mod_idemp_l.
    replace (Z.of_nat j + root_idx - root_idx) with (Z.of_nat j) by lia.
    apply Z.mod_small. lia. }
  rewrite Hidx, Nat2Z.id, Hj in Hbase. injection Hbase as <-.
  apply Exists_exists. exists v. split; [|done].
  apply list_elem_of_lookup. eauto.
Qed.

Section TemplateFacts.
  Variable QUALITIES : list string.
  Variable QUALITY_MAP : gmap string string.

#[local] Abbreviation raw_templates' := (raw_templates QUALITIES QUALITY_MAP).
#[local] Abbreviation quality_block' := (quality_block QUALITIES QUALITY_MAP).
#[local] Abbreviation quality_array' := (quality_array QUALITIES QUALITY_MAP).

Lemma raw_templates_blocks num_qualities :
  raw_templates' num_qualities
  = (blocks ← map_result quality_block' (range num_qualities);
     Ok (concat blocks ++ [np_ones 12])).
Proof.
  unfold raw_templates.
  rewrite (for_each_ext _ (λ q acc, ys ← quality_block' q; Ok (acc ++ ys))).
  - rewrite for_each_append. by destruct (map_result _ _).
  - intros q acc. unfold quality_block, append_roots.
    destruct (quality_array' q) as [qa|e|]; [|done..].
    exact (for_each_append1 (rotate qa) (range 12) acc).
Qed.

Lemma quality_block_length q block :
  quality_block' q = Ok block → length block = 12%nat.
Proof.
  unfold quality_block. intros (qa & _ & H)%bind_ok.
  apply map_result_length in H. by rewrite H, length_range.
Qed.

Lemma quality_block_lookup q block r :
  quality_block' q = Ok block → 0 ≤ r < 12 →
  ∃ qa row, quality_array' q = Ok qa ∧ rotate qa r = Ok row
            ∧ block !! Z.to_nat r = Some row.
Proof.
  unfold quality_block. intros (qa & Hqa & H)%bind_ok Hr.
  destruct (map_result_lookup _ _ _ (Z.to_nat r) r H) as (row & ? & ?).
  { by apply lookup_range. }
  by exists qa, row.
Qed.

(** Row [12*q + r] of the raw list is the rotation by [r] of quality [q],
    and the list has [12 * num_qualities + 1] rows, the last all ones. *)
Lemma raw_templates_layout num_qualities raw :
  raw_templates' num_qualities = Ok raw →
  length raw = (12 * Z.to_nat num_qualities + 1)%nat
  ∧ raw !! (12 * Z.to_nat num_qualities)%nat = Some (np_ones 12)
  ∧ ∀ q r, 0 ≤ q < num_qualities → 0 ≤ r < 12 →
      ∃ qa row, quality_array' q = Ok qa ∧ rotate qa r = Ok row
                ∧ raw !! Z.to_nat (12 * q + r) = Some row.
Proof.
  rewrite raw_templates_blocks.
  intros (blocks & Hblocks & [= <-])%bind_ok.
  assert (Hall : Forall (λ b, length b = 12%nat) blocks).
  { apply map_result_ok in Hblocks. apply Forall_forall. intros b Hb.
    apply list_elem_of_lookup in Hb as [i Hi].
    destruct (Forall2_lookup_r _ _ _ _ _ Hblocks Hi) as (q & _ & Hq).
    by eapply quality_block_length. }
  assert (Hlen : length blocks = Z.to_nat num_qualities).
  { apply map_result_length in Hblocks. by rewrite Hblocks, length_range. }
  pose proof (length_concat_blocks 12 blocks Hall) as Hcat.
  split; [|split].
  - rewrite length_app, Hcat, Hlen. simpl. lia.
  - rewrite lookup_app_r by lia.
    by replace (12 * Z.to_nat num_qualities - length (concat blocks))%nat
      with 0%nat by lia.
  - intros q r Hq Hr.
    destruct (map_result_lookup _ _ _ (Z.to_nat q) q Hblocks)
      as (block & Hblock & Hqb); [by apply lookup_range|].
    destruct (quality_block_lookup _ _ r Hqb Hr) as (qa & row & ? & ? & Hrow).
    exists qa, row. split; [done|]. split; [done|].
    rewrite lookup_app_l by (rewrite Hcat; lia).
    replace (Z.to_nat (12 * q + r)) with (12 * Z.to_nat q + Z.to_nat r)%nat
      by lia.
    rewrite (lookup_concat_blocks 12 blocks _ _ block); [done..|lia].
Qed.

(** C6: for every quality [q] below the count and every root [r] in 0..11,
    the template appended for [(q, r)], before normalisation, holds at each
    pitch-class position [p] the entry [(p - r) mod 12] of the quality's
    bit vector; rotating by [r + 12] gives the same row as rotating by [r],
    and rotating a 12-element vector by 12 gives the vector back. *)
Theorem template_is_rotation num_qualities raw q r p :
  raw_templates' num_qualities = Ok raw →
  0 ≤ q < num_qualities → 0 ≤ r < 12 → 0 ≤ p < 12 →
  ∃ qual_array row v,
    quality_array' q = Ok qual_array
    ∧ raw !! Z.to_nat (12 * q + r) = Some row
    ∧ row !! Z.to_nat p = Some v
    ∧ qual_array !! Z.to_nat ((p - r) `mod` 12) = Some v
    ∧ rotate qual_array (r + 12) = Ok row
    ∧ (length qual_array = 12%nat → rotate qual_array 12 = Ok qual_array).
Proof.
  intros Hraw Hq Hr Hp.
  destruct (raw_templates_layout _ _ Hraw) as (_ & _ & Hrows).
  destruct (Hrows q r Hq Hr) as (qa & row & Hqa & Hrot & Hrow).
  destruct (rotate_lookup _ _ _ p Hrot Hp) as (v & Hv & Hbase).
  exists qa, row, v. repeat split; try done.
  - by rewrite rotate_period.
  - intros Hlen. change 12 with (0 + 12).
    rewrite rotate_period. by apply rotate_0.
Qed.

Lemma vocabulary_quality_array q :
  vocabulary_ok QUALITIES QUALITY_MAP = true → 0 ≤ q < 13 →
  ∃ qa, quality_array' q = Ok qa ∧ length qa = 12%nat
        ∧ Forall (λ z, 0 ≤ z) qa ∧ Exists (λ z, 0 < z) qa.
Proof.
  unfold vocabulary_ok.
  intros [Hlen%bool_decide_eq_true Hall]%andb_prop Hq.
  destruct (getitem_ok_lt QUALITIES q) as [name Hname]; [lia|].
  apply getitem_nonneg in Hname as Hlook; [|lia].
  rewrite forallb_forall in Hall.
  specialize (Hall name). rewrite <- list_elem_of_In in Hall.
  assert (Hin : name ∈ QUALITIES) by (apply list_elem_of_lookup; eauto).
  apply Hall in Hin.
  destruct (QUALITY_MAP !! name) as [bits|] eqn:Hbits; [|done]. simpl in Hin.
  destruct (bits_ok_array bits Hin) as (qa & Hqa & ?).
  exists qa. split; [|done].
  unfold quality_array, dict_getitem. rewrite Hname. simpl.
  by rewrite Hbits.
Qed.

Lemma quality_array_in_vocabulary q qa :
  vocabulary_ok QUALITIES QUALITY_MAP = true → 0 ≤ q →
  quality_array' q = Ok qa →
  length qa = 12%nat ∧ Forall (λ z, 0 ≤ z) qa ∧ Exists (λ z, 0 < z) qa.
Proof.
  intros Hvoc Hq Hqa.
  assert (q < 13).
  { unfold quality_array in Hqa. apply bind_ok in Hqa as (name & Hname & _).
    apply getitem_ok_bound in Hname; [|done].
    unfold vocabulary_ok in Hvoc.
    apply andb_prop in Hvoc as [Hlen%bool_decide_eq_true _]. lia. }
  destruct (vocabulary_quality_array q Hvoc) as (qa' & Hqa' & ?); [lia|].
  congruence.
Qed.

Lemma raw_templates_total num_qualities :
  vocabulary_ok QUALITIES QUALITY_MAP = true → num_qualities ≤ 13 →
  is_ok (raw_templates' num_qualities).
Proof.
  intros Hvoc Hq. rewrite raw_templates_blocks.
  destruct (map_result_total quality_block' (range num_qualities))
    as [blocks Hblocks].
  - apply Forall_forall. intros q Hq'.
    apply list_elem_of_lookup in Hq' as [i Hi].
    apply lookup_seqZ in Hi as [-> Hi].
    destruct (vocabulary_quality_array (0 + Z.of_nat i) Hvoc)
      as (qa & Hqa & Hlen & _); [lia|].
    unfold quality_block. rewrite Hqa, bind_Ok_l.
    apply map_result_total, Forall_forall. intros r _.
    apply rotate_total. lia.
  - rewrite Hblocks. by eexists.
Qed.

(** Every row of the raw list is non-negative and has a positive entry. *)
Lemma raw_templates_rows num_qualities raw row :
  vocabulary_ok QUALITIES QUALITY_MAP = true →
  raw_templates' num_qualities = Ok raw → row ∈ raw →
  length row = 12%nat ∧ Forall (λ z, 0 ≤ z) row ∧ Exists (λ z, 0 < z) row.
Proof.
  intros Hvoc. rewrite raw_templates_blocks.
  intros (blocks & Hblocks & [= <-])%bind_ok Hrow.
  apply elem_of_app in Hrow as [Hrow| ->%list_elem_of_singleton].
  - apply list_elem_of_In, in_concat in Hrow as (block & Hblock & Hrow).
    apply list_elem_of_In in Hblock. apply list_elem_of_In in Hrow.
    apply list_elem_of_lookup in Hblock as [i Hi].
    apply map_result_ok in Hblocks.
    destruct (Forall2_lookup_r _ _ _ _ _ Hblocks Hi) as (q & Hq & Hqb).
    apply lookup_seqZ in Hq as [-> _].
    unfold quality_block in Hqb. apply bind_ok in Hqb as (qa & Hqa & Hrots).
    apply (quality_array_in_vocabulary _ _ Hvoc) in Hqa as (Hlen & Hnn & Hpos);
      [|lia].
    apply list_elem_of_lookup in Hrow as [k Hk].
    apply map_result_ok in Hrots.
    destruct (Forall2_lookup_r _ _ _ _ _ Hrots Hk) as (r & _ & Hrot).
    split; [by eapply rotate_length|].
    split; [by eapply rotate_Forall | by eapply rotate_Exists].
  - split; [done|]. split.
    + apply Forall_forall. intros z Hz%elem_of_replicate. lia.
    + apply Exists_exists. exists 1. split; [|lia]. by left.
Qed.

(** C7: with the 13-quality vocabulary in place and a quality count [Q]
    between 0 and 13, template generation returns exactly [12*Q + 1]
    templates; the template at index [12*q + r] is the normalised rotation
    by root [r] of quality [q] (quality-major order), and the template at
    the last index [12*Q] is the normalised all-ones vector, every entry
    1/12. *)
Theorem template_count_and_order num_qualities :
  vocabulary_ok QUALITIES QUALITY_MAP = true → 0 ≤ num_qualities ≤ 13 →
  ∃ templates,
    generate_chroma_templates QUALITIES QUALITY_MAP num_qualities
      = Ok templates
    ∧ Z.of_nat (length templates) = 12 * num_qualities + 1
    ∧ (∀ q r, 0 ≤ q < num_qualities → 0 ≤ r < 12 →
         ∃ qual_array row,
           quality_array' q = Ok qual_array
           ∧ rotate qual_array r = Ok row
           ∧ templates !! Z.to_nat (12 * q + r)
             = Some (normalize_row (inject_Z <$> row)))
    ∧ templates !! Z.to_nat (12 * num_qualities)
      = Some (normalize_row (inject_Z <$> np_ones 12))
    ∧ last templates = Some (replicate 12 (1 # 12)%Q).
Proof.
  intros Hvoc HQ.
  destruct (raw_templates_total num_qualities Hvoc) as [raw Hraw]; [lia|].
  destruct (raw_templates_layout _ _ Hraw) as (Hlen & Hlast & Hrows).
  exists (lp_norm1 (np_array raw)).
  unfold generate_chroma_templates. rewrite Hraw. simpl.
  split; [done|].
  unfold lp_norm1, np_array.
  split; [rewrite !length_fmap, Hlen; lia|].
  split; [|split].
  - intros q r Hq Hr.
    destruct (Hrows q r Hq Hr) as (qa & row & Hqa & Hrot & Hrow).
    exists qa, row. split; [done|]. split; [done|].
    by rewrite !list_lookup_fmap, Hrow.
  - replace (Z.to_nat (12 * num_qualities))
      with (12 * Z.to_nat num_qualities)%nat by lia.
    by rewrite !list_lookup_fmap, Hlast.
  - rewrite last_lookup, !length_fmap, Hlen.
    replace (Init.Nat.pred (12 * Z.to_nat num_qualities + 1))
      with (12 * Z.to_nat num_qualities)%nat by lia.
    by rewrite !list_lookup_fmap, Hlast.
Qed.

(** C8: every template [generate_chroma_templates] returns, for a quality
    and root as well as the trailing no-chord one, has 12 entries, all
    non-negative, that sum to 1 (in exact arithmetic). *)
Theorem templates_normalized num_qualities templates t :
  vocabulary_ok QUALITIES QUALITY_MAP = true →
  generate_chroma_templates QUALITIES QUALITY_MAP num_qualities
    = Ok templates →
  t ∈ templates →
  length t = 12%nat ∧ Forall (λ v, 0 <= v)%Q t ∧ (row_sum t == 1)%Q.
Proof.
  intros Hvoc Hgen Ht. unfold generate_chroma_templates in Hgen.
  apply bind_ok in Hgen as (raw & Hraw & [= <-]).
  unfold lp_norm1, np_array in Ht.
  apply list_elem_of_fmap in Ht as (qrow & -> & Hq).
  apply list_elem_of_fmap in Hq as (row & -> & Hrow).
  destruct (raw_templates_rows _ _ _ Hvoc Hraw Hrow) as (Hlen & Hnn & Hpos).
  split.
  - unfold normalize_row. by rewrite !length_fmap.
  - by apply normalize_row_unit.
Qed.

End TemplateFacts.

(** ** BatchSampler *)

Lemma wrap32_small z : - 2 ^ 31 ≤ z < 2 ^ 31 → wrap32 z = z.
Proof.
  unfold wrap32. change (2 ^ 31) with 2147483648.
  change (2 ^ 32) with 4294967296.
  intros Hz. rewrite Z.mod_small; lia.
Qed.

Lemma arange_int32_small n : n ≤ 2 ^ 31 → arange_int32 n = range n.
Proof.
  intros Hn. unfold arange_int32.
  rewrite <- (list_fmap_id (range n)) at 2.
  apply list_fmap_ext. intros i z Hz.
  apply lookup_seqZ in Hz as [-> Hi]. apply wrap32_small.
  change (2 ^ 31) with 2147483648 in *. unfold id. lia.
Qed.

Section BatchSamplerFacts.
  Context {X Y rng : Type}.
  Variable shuffle : list Z → rng → list Z * rng.
  Variable data : list X.
  Variable labels : list Y.
  Variable batch_size : Z.

  Hypothesis shuffle_permutes : ∀ l g, (shuffle l g).1 ≡ₚ l.
  Hypothesis data_nonempty : 0 < num_samples data ≤ 2 ^ 31.
  Hypothesis labels_cover : (length data ≤ length labels)%nat.

#[local] Abbreviation N := (num_samples data).
#[local] Abbreviation inv := (@shuffler_inv X rng data).
#[local] Abbreviation draw' := (draw shuffle data labels).
#[local] Abbreviation draws' := (draws shuffle data labels).
#[local] Abbreviation refreshed' := (refreshed shuffle data).

Lemma data_shuffler_inv g : inv (data_shuffler data g).
Proof.
  unfold shuffler_inv, data_shuffler. simpl.
  rewrite arange_int32_small by lia. split; [done | lia].
Qed.

Lemma reshuffle_inv s : inv s → inv (reshuffle shuffle s).
Proof.
  intros [Hperm _]. unfold shuffler_inv, reshuffle.
  pose proof (shuffle_permutes (sample_idx s) (np_random s)) as Hsh.
  destruct (shuffle (sample_idx s) (np_random s)) as [idx g]. simpl in *.
  split; [by rewrite Hsh | lia].
Qed.

Lemma exhausted_iff s :
  inv s → exhausted data s = true ↔ read_ptr s = N.
Proof.
  intros [_ Hptr]. unfold exhausted. rewrite bool_decide_eq_true. lia.
Qed.

Lemma refreshed_inv s :
  inv s → inv (refreshed' s) ∧ read_ptr (refreshed' s) < N.
Proof.
  intros Hinv. unfold refreshed.
  destruct (exhausted data s) eqn:Hex.
  - split; [by apply reshuffle_inv|].
    unfold reshuffle. destruct (shuffle _ _). simpl. lia.
  - split; [done|]. unfold exhausted in Hex.
    apply bool_decide_eq_false in Hex. lia.
Qed.

Lemma inv_lookup s k :
  inv s → 0 ≤ k < N →
  ∃ i, sample_idx s !! Z.to_nat k = Some i ∧ 0 ≤ i < N.
Proof.
  intros [Hperm _] Hk.
  destruct (lookup_lt_is_Some_2 (sample_idx s) (Z.to_nat k)) as [i Hi].
  { rewrite Hperm, length_range. lia. }
  exists i. split; [done|].
  assert (Hin : i ∈ range N).
  { rewrite <- Hperm. apply list_elem_of_lookup. eauto. }
  apply list_elem_of_lookup in Hin as [j Hj].
  apply lookup_seqZ in Hj. lia.
Qed.

(** One draw always succeeds: it reads the index under the cursor of the
    refreshed state, selects that row of both arrays and moves the cursor
    one step. *)
Lemma draw_spec s :
  inv s →
  ∃ i x y,
    sample_idx (refreshed' s) !! Z.to_nat (read_ptr (refreshed' s)) = Some i
    ∧ 0 ≤ i < N
    ∧ data !! Z.to_nat i = Some x ∧ labels !! Z.to_nat i = Some y
    ∧ draw' s
      = Ok (i, (x, y),
            Shuffler (sample_idx (refreshed' s)) (read_ptr (refreshed' s) + 1)
                     (np_random (refreshed' s)))
    ∧ inv (Shuffler (sample_idx (refreshed' s)) (read_ptr (refreshed' s) + 1)
                    (np_random (refreshed' s))).
Proof.
  intros Hinv. destruct (refreshed_inv s Hinv) as [Hinv1 Hlt].
  destruct Hinv1 as [Hperm Hptr].
  destruct (inv_lookup _ (read_ptr (refreshed' s)) (conj Hperm Hptr))
    as (i & Hi & Hrange); [lia|].
  destruct (lookup_lt_is_Some_2 data (Z.to_nat i)) as [x Hx];
    [unfold num_samples in Hrange; lia|].
  destruct (lookup_lt_is_Some_2 labels (Z.to_nat i)) as [y Hy];
    [unfold num_samples in Hrange; lia|].
  exists i, x, y. repeat split; try done; try (simpl; lia).
  unfold draw. fold (refreshed' s).
  assert (Hg : getitem (sample_idx (refreshed' s)) (read_ptr (refreshed' s))
               = Ok i) by (apply getitem_nonneg; [lia | done]).
  assert (Hgx : getitem data i = Ok x) by (apply getitem_nonneg; [lia|done]).
  assert (Hgy : getitem labels i = Ok y) by (apply getitem_nonneg; [lia|done]).
  cbv zeta. by rewrite Hg, bind_Ok_l, Hgx, bind_Ok_l, Hgy.
Qed.

(** A pull is [batch_size] consecutive draws, whatever the cursor. *)
Lemma fill_draws fuel (x_m : list X) (y_m : list Y) s :
  (Z.to_nat (batch_size - Z.of_nat (length x_m)) ≤ fuel)%nat →
  fill shuffle data labels batch_size fuel x_m y_m s
  = ('(ds, s') ← draws' (Z.to_nat (batch_size - Z.of_nat (length x_m))) s;
     Ok (x_m ++ ds.*2.*1, y_m ++ ds.*2.*2, s')).
Proof.
  revert x_m y_m s. induction fuel as [|fuel IH]; intros x_m y_m s Hfuel.
  - simpl. rewrite bool_decide_eq_false_2 by lia.
    replace (Z.to_nat _) with 0%nat by lia. simpl. by rewrite !app_nil_r.
  - simpl. case_bool_decide as Hlt.
    + destruct (Z.to_nat (batch_size - Z.of_nat (length x_m))) as [|k] eqn:Hk;
        [lia|].
      simpl. destruct (draw' s) as [[[i [x y]] s1]|e|]; [|done..].
      rewrite !bind_Ok_l. rewrite IH by (rewrite length_app; simpl; lia).
      replace (Z.to_nat (batch_size - Z.of_nat (length (x_m ++ [x])))) with k
        by (rewrite length_app; simpl; lia).
      destruct (draws' k s1) as [[rest s2]|e|]; [|done..].
      simpl. by rewrite <- !app_assoc.
    + replace (Z.to_nat _) with 0%nat by lia. simpl. by rewrite !app_nil_r.
Qed.

Lemma draws_spec n s :
  inv s →
  ∃ ds s', draws' n s = Ok (ds, s') ∧ length ds = n ∧ inv s'
    ∧ Forall (λ d, data !! Z.to_nat d.1 = Some d.2.1
                   ∧ labels !! Z.to_nat d.1 = Some d.2.2) ds.
Proof.
  revert s. induction n as [|n IH]; intros s Hinv.
  - exists [], s. split; [done|]. split; [done|]. split; [done|constructor].
  - destruct (draw_spec s Hinv) as (i & x & y & _ & _ & Hx & Hy & Hdraw & Hinv1).
    destruct (IH _ Hinv1) as (ds & s' & Hds & Hlen & Hinv' & Hall).
    exists ((i, (x, y)) :: ds), s'. simpl.
    rewrite Hdraw, bind_Ok_l. simpl. rewrite Hds, bind_Ok_l.
    split; [done|]. split; [by rewrite Hlen|]. split; [done|].
    by constructor.
Qed.

(** While the cursor stays within the array, draws read it in order and
    leave the array and the random generator alone. *)
Lemma draws_in_order n s ds s' :
  inv s → read_ptr s + Z.of_nat n ≤ N → draws' n s = Ok (ds, s') →
  ds.*1 = take n (drop (Z.to_nat (read_ptr s)) (sample_idx s))
  ∧ sample_idx s' = sample_idx s ∧ np_random s' = np_random s
  ∧ read_ptr s' = read_ptr s + Z.of_nat n.
Proof.
  revert s ds. induction n as [|n IH]; intros s ds Hinv Hn Hds.
  - injection Hds as <- <-. repeat split; lia.
  - assert (Hfresh : refreshed' s = s).
    { unfold refreshed, exhausted. by rewrite bool_decide_eq_false_2 by lia. }
    destruct (draw_spec s Hinv) as (i & x & y & Hi & _ & _ & _ & Hdraw & Hinv1).
    rewrite Hfresh in Hi, Hdraw, Hinv1.
    simpl in Hds. rewrite Hdraw, bind_Ok_l in Hds. simpl in Hds.
    destruct (draws' n _) as [[rest s2]|e|] eqn:Hrest; [|done..].
    injection Hds as <- <-.
    destruct (IH _ _ Hinv1 ltac:(simpl; lia) Hrest)
      as (Hidx & Hsame & Hgen & Hptr).
    cbn [sample_idx read_ptr np_random] in *.
    destruct Hinv as [_ Hp].
    split; [|repeat split; [done..|lia]].
    rewrite fmap_cons, Hidx.
    replace (Z.to_nat (read_ptr s + 1)) with (S (Z.to_nat (read_ptr s)))
      by lia.
    by rewrite (drop_S _ _ _ Hi).
Qed.


End BatchSamplerFacts.

(** ** DatasetPreparer *)

Lemma np_mask_filter {A} (a : list A) (y_true : list Z) :
  length a = length y_true →
  ∃ rows, np_mask a (valid_idx y_true) = Ok rows
    ∧ length rows = length (filter (λ y, 0 < y) y_true).
Proof.
  intros Hlen. unfold np_mask, valid_idx.
  rewrite bool_decide_eq_true_2 by (by rewrite length_fmap).
  eexists. split; [done|]. rewrite length_fmap.
  revert y_true Hlen. induction a as [|x a IH]; intros [|y ys] Hlen;
    try discriminate; [done|].
  injection Hlen as Hlen. rewrite fmap_cons. cbn [zip zip_with].
  rewrite !filter_cons. simpl.
  destruct (decide (0 < y)) as [Hy|Hy].
  - rewrite bool_decide_eq_true_2 by done.
    rewrite decide_True by done. simpl. f_equal. by apply IH.
  - rewrite bool_decide_eq_false_2 by done.
    rewrite decide_False by done. by apply IH.
Qed.

Lemma np_mask_self (y_true : list Z) :
  np_mask y_true (valid_idx y_true) = Ok (filter (λ y, 0 < y) y_true).
Proof.
  unfold np_mask, valid_idx.
  rewrite bool_decide_eq_true_2 by (by rewrite length_fmap). f_equal.
  induction y_true as [|y ys IH]; [done|].
  rewrite fmap_cons. cbn [zip zip_with]. rewrite !filter_cons. simpl.
  destruct (decide (0 < y)) as [Hy|Hy].
  - rewrite bool_decide_eq_true_2 by done.
    rewrite decide_True by done. rewrite fmap_cons. simpl. by f_equal.
  - rewrite bool_decide_eq_false_2 by done. by rewrite decide_False by done.
Qed.

Lemma np_mask_ok_length {A} (a : list A) mask rows :
  np_mask a mask = Ok rows → length a = length mask.
Proof. unfold np_mask. by case_bool_decide. Qed.

Lemma np_max_spec (a : list Z) (m : Z) :
  np_max a = Ok m → m ∈ a ∧ Forall (λ y, y ≤ m) a.
Proof.
  destruct a as [|x a]; [done|]. simpl. intros [= <-].
  induction a as [|y a [IHin IHall]]; simpl.
  - split; [by left | by constructor].
  - inversion IHall as [|? ? Hx Ha]; subst.
    destruct (Z.max_spec y (foldr Z.max x a)) as [[Hlt ->]|[Hle ->]].
    + split.
      * apply elem_of_cons in IHin as [Heq|Hin]; [rewrite Heq; by left|].
        right. by right.
      * constructor; [done|]. constructor; [lia|done].
    + split; [right; by left|].
      constructor; [lia|]. constructor; [lia|].
      eapply Forall_impl; [done|]. intros; simpl in *; lia.
Qed.

Section DatasetPreparerFacts.
  Context {feature pooled stat : Type}.
  Variable QUALITIES : list string.
  Variable QUALITY_MAP : gmap string string.
  Variable cqt_pool : list feature → result (list pooled).
  Variable np_mean : list pooled → stat.
  Variable np_std : list pooled → stat.

#[local] Abbreviation prepare :=
  (prepare_training_data QUALITIES QUALITY_MAP cqt_pool np_mean np_std).

(** What the filter keeps: the rows whose mapped label is strictly
    positive, as many features as labels, never more than came in. *)
Lemma filter_rows_spec (data : list feature) labels label_map data' y_true :
  filter_rows data labels label_map = Ok (data', y_true) →
  length data = length labels
  ∧ y_true = filter (λ y, 0 < y) (mapped_labels label_map labels)
  ∧ length data' = length y_true
  ∧ (length y_true ≤ length labels)%nat
  ∧ Forall (λ y, 0 < y) y_true.
Proof.
  unfold filter_rows. intros (d & Hd & (y & Hy & [= <- <-])%bind_ok)%bind_ok.
  pose proof (np_mask_ok_length _ _ _ Hd) as Hlen.
  unfold valid_idx, mapped_labels in Hlen. rewrite !length_fmap in Hlen.
  rewrite np_mask_self in Hy. injection Hy as <-.
  destruct (np_mask_filter data (mapped_labels label_map labels)) as (d' & Hd' & Hlen').
  { unfold mapped_labels. by rewrite length_fmap. }
  rewrite Hd in Hd'. injection Hd' as <-.
  repeat split; try done.
  - etrans; [apply length_filter|]. unfold mapped_labels.
    by rewrite length_fmap.
  - apply Forall_forall. by intros y [? _]%list_elem_of_filter.
Qed.

Lemma filter_rows_total (data : list feature) labels label_map :
  length data = length labels →
  ∃ data', filter_rows data labels label_map
           = Ok (data', filter (λ y, 0 < y) (mapped_labels label_map labels)).
Proof.
  intros Hlen. unfold filter_rows.
  destruct (np_mask_filter data (mapped_labels label_map labels))
    as (d & Hd & _).
  { unfold mapped_labels. by rewrite length_fmap. }
  exists d. by rewrite Hd, bind_Ok_l, np_mask_self.
Qed.

Lemma np_take_ok_iff {A} (a : list A) (idx : list Z) :
  Forall (λ l, 0 ≤ l) idx →
  is_ok (np_take a idx) ↔ Forall (λ l, l < Z.of_nat (length a)) idx.
Proof.
  intros Hnn. split.
  - intros [rows Hrows%map_result_ok]. apply Forall_forall. intros l Hl.
    apply list_elem_of_lookup in Hl as [i Hi].
    destruct (Forall2_lookup_l _ _ _ _ _ Hrows Hi) as (row & _ & Hget).
    rewrite Forall_forall in Hnn.
    apply getitem_ok_bound in Hget; [done|].
    apply Hnn, list_elem_of_lookup. eauto.
  - intros Hlt. apply map_result_total.
    rewrite Forall_forall in Hnn, Hlt |- *. intros l Hl.
    apply getitem_ok_lt. split; [by apply Hnn | by apply Hlt].
Qed.

(** C2, as the code has it: with the quality count inferred as the
    maximum retained label integer-divided by 12 and [12*count + 1]
    templates generated for it, every retained label lies in
    [0, 12*count + 12); all retained labels lie within [0, num_templates),
    and binding [templates[label]] succeeds, exactly when the maximum
    retained label is the multiple [12*count] of 12, the index of the
    no-chord template. *)
Theorem retained_labels_bound (data : list feature) labels label_map
    data' y_true y_max templates :
  filter_rows data labels label_map = Ok (data', y_true) →
  np_max y_true = Ok y_max →
  generate_chroma_templates QUALITIES QUALITY_MAP (y_max `div` 12)
    = Ok templates →
  Z.of_nat (length templates) = 12 * (y_max `div` 12) + 1
  ∧ Forall (λ l, 0 ≤ l < 12 * (y_max `div` 12) + 12) y_true
  ∧ (Forall (λ l, 0 ≤ l < 12 * (y_max `div` 12) + 1) y_true
     ↔ y_max = 12 * (y_max `div` 12))
  ∧ (is_ok (np_take templates y_true) ↔ y_max = 12 * (y_max `div` 12)).
Proof.
  intros Hfilter Hmax Hgen.
  destruct (filter_rows_spec _ _ _ _ _ Hfilter) as (_ & _ & _ & _ & Hpos).
  destruct (np_max_spec _ _ Hmax) as [Hin Hle].
  assert (Hmpos : 0 < y_max) by (rewrite Forall_forall in Hpos; auto).
  pose proof (Z.div_mod y_max 12 ltac:(lia)) as Hdm.
  pose proof (Z.mod_pos_bound y_max 12 ltac:(lia)) as Hmod.
  assert (HQ : 0 ≤ y_max `div` 12) by (apply Z.div_pos; lia).
  assert (Hlen : Z.of_nat (length templates) = 12 * (y_max `div` 12) + 1).
  { unfold generate_chroma_templates in Hgen.
    apply bind_ok in Hgen as (raw & Hraw & [= <-]).
    destruct (raw_templates_layout _ _ _ _ Hraw) as (Hl & _).
    unfold lp_norm1, np_array. rewrite !length_fmap, Hl. lia. }
  assert (Hiff : Forall (λ l, 0 ≤ l < 12 * (y_max `div` 12) + 1) y_true
                 ↔ y_max = 12 * (y_max `div` 12)).
  { rewrite Forall_forall in Hpos, Hle. split.
    - intros Hall. rewrite Forall_forall in Hall. specialize (Hall _ Hin). lia.
    - intros Heq. apply Forall_forall. intros l Hl.
      specialize (Hpos _ Hl). specialize (Hle _ Hl). simpl in *. lia. }
  split; [done|]. split; [|split; [done|]].
  - rewrite Forall_forall in Hpos, Hle. apply Forall_forall. intros l Hl.
    specialize (Hpos _ Hl). specialize (Hle _ Hl). simpl in *. lia.
  - rewrite np_take_ok_iff, <- Hiff, Hlen.
    + rewrite Forall_forall in Hpos. rewrite !Forall_forall.
      split; intros Hall l Hl; specialize (Hall _ Hl);
        specialize (Hpos _ Hl); simpl in *; lia.
    + eapply Forall_impl; [exact Hpos|]. intros; simpl in *; lia.
Qed.


End DatasetPreparerFacts.

(** ** TrainingLoop *)

Lemma setitem_ok {A} (a : list A) (i : Z) (v : A) :
  0 ≤ i < Z.of_nat (length a) → setitem a i v = Ok (<[Z.to_nat i := v]> a).
Proof. intros Hi. unfold setitem. by rewrite bool_decide_eq_true_2. Qed.

Lemma setitem_inv {A} (a : list A) (i : Z) (v : A) a' :
  setitem a i v = Ok a' →
  0 ≤ i < Z.of_nat (length a) ∧ a' = <[Z.to_nat i := v]> a.
Proof. unfold setitem. case_bool_decide; [|done]. by intros [= <-]. Qed.

Lemma lands_interrupted sig n p :
  lands sig n p = true → interrupted_at sig n = true.
Proof.
  destruct sig as [[k q]|]; [|done]. simpl.
  rewrite !bool_decide_eq_true. by intros [? _].
Qed.

Lemma interrupted_lands sig n :
  interrupted_at sig n = true → ∃ p, lands sig n p = true.
Proof.
  destruct sig as [[k q]|]; [|done]. simpl.
  rewrite bool_decide_eq_true. intros Hk. exists q.
  by apply bool_decide_eq_true.
Qed.

Lemma completed_le sig num : completed sig num ≤ num.
Proof. destruct sig as [[k q]|]; simpl; lia. Qed.

Lemma completed_interrupted sig num n :
  interrupted_at sig n = true → n < num → completed sig num = n.
Proof.
  destruct sig as [[k q]|]; [|done]. simpl.
  rewrite bool_decide_eq_true. lia.
Qed.

Lemma completed_next sig num n :
  interrupted_at sig n = false → n ≤ completed sig num → n < num →
  n + 1 ≤ completed sig num.
Proof.
  destruct sig as [[k q]|]; simpl; [|lia].
  rewrite bool_decide_eq_false. lia.
Qed.

(** Closes the easy parts of the "cut short" case of [body_cases] and
    leaves what totality of the collaborators has to give. *)
Ltac cut_short :=
  right; cbn [train_loss n_iter];
  rewrite ?length_insert, ?take_insert_ge by lia;
  split; [done|]; split; [done|]; split; [done|]; split; [done|];
  intros Hpull Hstep' Hlt' Hpf'; split; [|]; try done.

Section TrainingLoopFacts.
  Context {gen batch store loss rate : Type}.
  Variable shuffler_next : gen → result (batch * gen).
  Variable objective_fx : batch → rate → store → result (loss * store).
  Variable zero : loss.
  Variable sig : sigint.
  Variable learning_rate : rate.
  Variable num_iterations : Z.
  Variable print_frequency : Z.

#[local] Abbreviation body' :=
  (body shuffler_next objective_fx sig learning_rate print_frequency).
#[local] Abbreviation loop :=
  (while_loop shuffler_next objective_fx sig learning_rate num_iterations
              print_frequency).
#[local] Abbreviation iterate' :=
  (iterate shuffler_next objective_fx learning_rate).
#[local] Abbreviation train :=
  (train_network shuffler_next objective_fx zero sig learning_rate
                 num_iterations print_frequency).

(** A pass of the body either runs to its end - the batch pulled, the
    parameters stepped, the loss stored at [n_iter], [n_iter] incremented -
    or is cut short with [n_iter] and the losses before it unchanged. *)
Lemma body_cases st st' r :
  0 ≤ n_iter st → body' st = (st', r) →
  (r = Ok () ∧ interrupted_at sig (n_iter st) = false ∧ print_frequency ≠ 0
   ∧ ∃ b g l p out,
       shuffler_next (shuffler_state st) = Ok (b, g)
       ∧ objective_fx b learning_rate (params st) = Ok (l, p)
       ∧ n_iter st < Z.of_nat (length (train_loss st))
       ∧ st' = TrainState (<[Z.to_nat (n_iter st) := l]> (train_loss st))
                          (n_iter st + 1) g p out)
  ∨ (r ≠ Ok () ∧ n_iter st' = n_iter st
     ∧ length (train_loss st') = length (train_loss st)
     ∧ take (Z.to_nat (n_iter st)) (train_loss st')
       = take (Z.to_nat (n_iter st)) (train_loss st)
     ∧ ((∀ g, is_ok (shuffler_next g)) →
        (∀ b s, is_ok (objective_fx b learning_rate s)) →
        n_iter st < Z.of_nat (length (train_loss st)) →
        print_frequency ≠ 0 →
        r = Raise KeyboardInterrupt ∧ interrupted_at sig (n_iter st) = true)).
Proof.
  intros Hn. unfold body. cbv zeta.
  destruct (lands sig (n_iter st) AtPull) eqn:H1.
  { intros [= <- <-]. cut_short. by eapply lands_interrupted. }
  destruct (shuffler_next (shuffler_state st)) as [[b g]|e|] eqn:Hnext.
  2,3: intros [= <- <-]; cut_short;
       destruct (Hpull (shuffler_state st)); congruence.
  cbn [train_loss n_iter shuffler_state params console].
  destruct (lands sig (n_iter st) AtStep) eqn:H2.
  { intros [= <- <-]. cut_short. by eapply lands_interrupted. }
  destruct (objective_fx b learning_rate (params st)) as [[l p]|e|] eqn:Hstep.
  2,3: intros [= <- <-]; cut_short;
       destruct (Hstep' b (params st)); congruence.
  destruct (setitem (train_loss st) (n_iter st) l) as [tl|e|] eqn:Hset.
  2,3: intros [= <- <-]; cut_short;
       rewrite setitem_ok in Hset by lia; congruence.
  apply setitem_inv in Hset as [Hlt ->].
  destruct (lands sig (n_iter st) AtIncrement) eqn:H3.
  { intros [= <- <-]. cut_short. by eapply lands_interrupted. }
  case_bool_decide as Hpf.
  { intros [= <- <-]. cut_short. }
  intros [= <- <-]. left. split; [done|]. split; [|split; [done|]].
  - destruct (interrupted_at sig (n_iter st)) eqn:Hint; [|done].
    apply interrupted_lands in Hint as [[] Hq]; congruence.
  - eexists b, g, l, p, _. repeat split; try done. lia.
Qed.

Lemma iterate_length n g p trace final :
  iterate' n g p = Ok (trace, final) → length trace = n.
Proof.
  revert g p trace. induction n as [|n IH]; intros g p trace; simpl.
  - intros Heq. by simplify_eq.
  - intros ([b g1] & _ & ([l p1] & _ & ([rest fin] & Hrest & Heq)%bind_ok)
              %bind_ok)%bind_ok.
    simplify_eq. simpl. f_equal. by eapply IH.
Qed.

Lemma iterate_snoc n g p trace gn pn b g' l p' :
  iterate' n g p = Ok (trace, (gn, pn)) →
  shuffler_next gn = Ok (b, g') →
  objective_fx b learning_rate pn = Ok (l, p') →
  iterate' (S n) g p = Ok (trace ++ [(b, pn, l)], (g', p')).
Proof.
  revert g p trace. induction n as [|n IH]; intros g p trace.
  - intros [= <- <- <-] Hnext Hstep. simpl.
    by rewrite Hnext, bind_Ok_l, Hstep.
  - intros Hiter Hnext Hstep.
    change (iterate' (S n) g p) with
      ('(b, g') ← shuffler_next g;
       '(l, p') ← objective_fx b learning_rate p;
       '(rest, final) ← iterate' n g' p';
       Ok ((b, p, l) :: rest, final)) in Hiter.
    apply bind_ok in Hiter as ([b0 g1] & Hn0 & Hiter).
    apply bind_ok in Hiter as ([l0 p1] & Hs0 & Hiter).
    apply bind_ok in Hiter as ([rest fin] & Hrest & [= <- ->]).
    change (iterate' (S (S n)) g p) with
      ('(b, g') ← shuffler_next g;
       '(l, p') ← objective_fx b learning_rate p;
       '(rest, final) ← iterate' (S n) g' p';
       Ok ((b, p, l) :: rest, final)).
    rewrite Hn0, bind_Ok_l, Hs0, bind_Ok_l.
    by rewrite (IH _ _ _ Hrest Hnext Hstep).
Qed.

(** Entry [i] of the run records the batch pulled in iteration [i], the
    parameters that iteration started from, and the loss the step returned
    on them. *)
Lemma iterate_lookup n g p trace final i b pi l :
  iterate' n g p = Ok (trace, final) → trace !! i = Some (b, pi, l) →
  ∃ pre gi g' p',
    iterate' i g p = Ok (pre, (gi, pi))
    ∧ shuffler_next gi = Ok (b, g')
    ∧ objective_fx b learning_rate pi = Ok (l, p').
Proof.
  revert g p trace i. induction n as [|n IH]; intros g p trace i.
  - simpl. intros Heq Hi. simplify_eq.
  - intros Hiter.
    change (iterate' (S n) g p) with
      ('(b, g') ← shuffler_next g;
       '(l, p') ← objective_fx b learning_rate p;
       '(rest, final) ← iterate' n g' p';
       Ok ((b, p, l) :: rest, final)) in Hiter.
    apply bind_ok in Hiter as ([b0 g1] & Hn0 & Hiter).
    apply bind_ok in Hiter as ([l0 p1] & Hs0 & Hiter).
    apply bind_ok in Hiter as ([rest fin] & Hrest & [= <- ->]).
    destruct i as [|i]; simpl.
    + intros [= <- <- <-]. by exists [], g, g1, p1.
    + intros Hi.
      destruct (IH _ _ _ _ Hrest Hi) as (pre & gi & g' & p' & Hpre & ? & ?).
      exists ((b0, p, l0) :: pre), gi, g', p'. split; [|done].
      by rewrite Hn0, bind_Ok_l, Hs0, bind_Ok_l, Hpre.
Qed.

(** Wherever and however the loop stops, the first [n_iter] entries of
    [train_loss] are the losses of the first [n_iter] iterations of the
    run. *)
Lemma while_loop_trace g0 p0 fuel st trace :
  0 ≤ n_iter st →
  iterate' (Z.to_nat (n_iter st)) g0 p0
    = Ok (trace, (shuffler_state st, params st)) →
  take (Z.to_nat (n_iter st)) (train_loss st) = trace.*2 →
  ∃ trace' final,
    0 ≤ n_iter (loop fuel st).1
    ∧ iterate' (Z.to_nat (n_iter (loop fuel st).1)) g0 p0 = Ok (trace', final)
    ∧ take (Z.to_nat (n_iter (loop fuel st).1)) (train_loss (loop fuel st).1)
      = trace'.*2.
Proof.
  revert st trace. induction fuel as [|fuel IH]; intros st trace Hn Hiter Htake.
  - simpl. case_bool_decide; simpl; eauto.
  - simpl. case_bool_decide as Hlt; [|simpl; eauto].
    destruct (body' st) as [st1 r] eqn:Hbody.
    destruct (body_cases _ _ _ Hn Hbody)
      as [(-> & _ & _ & b & g & l & p & out & Hnext & Hstep & Hlen & ->)
         |(Hr & Hn1 & _ & Htake1 & _)].
    + apply (IH _ (trace ++ [(b, params st, l)])); cbn [n_iter train_loss
        shuffler_state params]; [lia| |].
      * replace (Z.to_nat (n_iter st + 1)) with (S (Z.to_nat (n_iter st)))
          by lia.
        by eapply iterate_snoc.
      * replace (Z.to_nat (n_iter st + 1)) with (S (Z.to_nat (n_iter st)))
          by lia.
        rewrite (take_S_r _ _ l) by (apply list_lookup_insert_eq; lia).
        rewrite take_insert_ge by lia. by rewrite Htake, fmap_app.
    + destruct r as [[]|e|]; [done|..]; simpl; rewrite Hn1, Htake1; eauto.
Qed.

(** With collaborators that do not raise and a non-zero print frequency
    the loop ends normally or by the interrupt, after exactly the
    [completed] iterations. *)
Lemma while_loop_count fuel st :
  (∀ g, is_ok (shuffler_next g)) →
  (∀ b s, is_ok (objective_fx b learning_rate s)) →
  print_frequency ≠ 0 →
  length (train_loss st) = Z.to_nat num_iterations →
  0 ≤ n_iter st ≤ completed sig num_iterations →
  (Z.to_nat (num_iterations - n_iter st) ≤ fuel)%nat →
  n_iter (loop fuel st).1 = completed sig num_iterations
  ∧ ((loop fuel st).2 = Ok () ∨ (loop fuel st).2 = Raise KeyboardInterrupt).
Proof.
  intros Hpull Hstep Hpf. revert st.
  induction fuel as [|fuel IH]; intros st Hlen Hn Hfuel;
    pose proof (completed_le sig num_iterations) as Hle.
  - simpl. rewrite bool_decide_eq_false_2 by lia. simpl. split; [lia|by left].
  - simpl. case_bool_decide as Hlt; [|simpl; split; [lia|by left]].
    destruct (body' st) as [st1 r] eqn:Hbody.
    destruct (body_cases _ _ _ (proj1 Hn) Hbody)
      as [(-> & Hint & _ & b & g & l & p & out & _ & _ & _ & ->)
         |(Hr & Hn1 & _ & _ & Hwhy)].
    + apply IH; cbn [n_iter train_loss].
      * by rewrite length_insert.
      * pose proof (completed_next _ _ _ Hint (proj2 Hn) Hlt). lia.
      * lia.
    + assert (Hin : n_iter st < Z.of_nat (length (train_loss st))) by lia.
      destruct (Hwhy Hpull Hstep Hin Hpf) as [-> Hint]. simpl.
      split; [|by right].
      rewrite Hn1. symmetry. by apply completed_interrupted.
Qed.


(** Whatever the step function preserves, the whole training run
    preserves. *)
Lemma train_network_preserves (P : store → Prop) g0 p0 :
  (∀ b s l s', objective_fx b learning_rate s = Ok (l, s') → P s → P s') →
  P p0 → P (params (train g0 p0).1).
Proof.
  intros Hstep Hp0.
  assert (Hbody : ∀ st, P (params st) → P (params (body' st).1)).
  { intros st HP. unfold body. cbv zeta.
    repeat (case_match; simpl; try done); simplify_eq; eauto. }
  assert (Hloop : ∀ fuel st, P (params st) → P (params (loop fuel st).1)).
  { induction fuel as [|fuel IH]; intros st HP; simpl; case_bool_decide;
      try done.
    specialize (Hbody st HP).
    destruct (body' st) as [st1 [[]|e|]]; simpl in *; auto. }
  unfold train_network. case_bool_decide; [done|].
  match goal with |- context [loop ?f ?st0] =>
    specialize (Hloop f st0 Hp0); destruct (loop f st0) as [st r] end.
  destruct r as [[]|[]|]; simpl in *; done.
Qed.

End TrainingLoopFacts.

(** ** LinearChromaModel *)

Section ModelFacts.
  Context {tensor scalar : Type} `{!Theano tensor scalar, !Inhabited tensor}.

(** The value line 202 assigns to [updates[param]]. *)
Lemma updates_trainable (s : shared tensor) x y (eta : scalar) param :
  param ∈ trainable →
  updates s x y eta !! param
  = Some (T_sub (s !!! param)
            (T_scale eta
               (T_grad (λ w, scalar_loss (<[param := w]> s) x y)
                       (s !!! param)))).
Proof.
  unfold trainable, updates. simpl.
  intros [->|[->|[]%elem_of_nil]%elem_of_cons]%elem_of_cons.
  - rewrite lookup_insert_ne by done. by rewrite lookup_insert_eq.
  - by rewrite lookup_insert_eq.
Qed.

Lemma updates_other (s : shared tensor) x y (eta : scalar) name :
  name ∉ trainable → updates s x y eta !! name = None.
Proof.
  unfold trainable, updates. simpl. intros Hname.
  rewrite !lookup_insert_ne; [done|..];
    intros <-; apply Hname; repeat constructor.
Qed.

Lemma statistics_not_trainable :
  ("mu"%string ∉ trainable) ∧ ("sigma"%string ∉ trainable).
Proof.
  unfold trainable. split; intros H;
    repeat (apply elem_of_cons in H as [H|H]; [discriminate|]);
    by apply elem_of_nil in H.
Qed.

Lemma objective_fx_frame (s : shared tensor) x y (eta : scalar) name :
  name ∉ trainable → (objective_fx x y eta s).2 !! name = s !! name.
Proof.
  intros Hname. unfold objective_fx. simpl.
  by rewrite lookup_union_r by (by apply updates_other).
Qed.

(** Training never touches what the step function leaves alone: a run
    started with the statistics in place ends with them in place. *)
Lemma training_keeps_statistics {gen : Type}
    (next : gen → result (tensor * tensor * gen)) sig (eta : scalar)
    num_iterations print_frequency g0 (s : shared tensor) mu sigma :
  params (train_network next step s_zero sig eta num_iterations
            print_frequency g0 (set_statistics mu sigma s)).1
    !! "mu"%string = Some mu
  ∧ params (train_network next step s_zero sig eta num_iterations
              print_frequency g0 (set_statistics mu sigma s)).1
      !! "sigma"%string = Some sigma.
Proof.
  apply (train_network_preserves next step s_zero sig eta num_iterations
           print_frequency
           (λ p : shared tensor, p !! "mu"%string = Some mu
                                 ∧ p !! "sigma"%string = Some sigma)).
  - intros b p l p' Hstep [Hmu Hsigma].
    unfold step, objective_fx in Hstep. simplify_eq.
    destruct statistics_not_trainable as [Hm Hs].
    by rewrite !lookup_union_r by (by apply updates_other).
  - unfold set_statistics. split.
    + rewrite lookup_insert_ne by done. by rewrite lookup_insert_eq.
    + by rewrite lookup_insert_eq.
Qed.



End ModelFacts.

(** ** The whole run *)

Section MainFacts.
  Context {feature pooled tensor scalar rng : Type}.
  Context `{!Theano tensor scalar, !Inhabited tensor}.
  Variable QUALITIES : list string.
  Variable QUALITY_MAP : gmap string string.
  Variable cqt_pool : list feature → result (list pooled).
  Variable np_mean : list pooled → tensor.
  Variable np_std : list pooled → tensor.
  Variable shuffle : list Z → rng → list Z * rng.
  Variable np_array_x : list pooled → tensor.
  Variable np_array_y : list (list Q) → tensor.

(** When [main] gets as far as saving, the mean and scale it saves are
    the statistics [prepare_training_data] computed, whatever training did
    in between. *)
Lemma main_saves_statistics data labels label_map max_iterations batch_size
    print_frequency (learning_rate : scalar) weights0_init (g : rng) sig
    loss saved :
  main QUALITIES QUALITY_MAP cqt_pool np_mean np_std shuffle
       np_array_x np_array_y data labels label_map max_iterations
       batch_size print_frequency learning_rate weights0_init g sig
    = Ok (loss, saved) →
  ∃ prep,
    prepare_training_data QUALITIES QUALITY_MAP cqt_pool np_mean np_std
      data labels label_map batch_size = Ok prep
    ∧ saved !! "mu"%string = Some (stats_mu prep)
    ∧ saved !! "sigma"%string = Some (stats_sigma prep).
Proof.
  unfold main, build_chroma_transform.
  intros (prep & Hprep & Hrun)%bind_ok. exists prep. split; [done|].
  match type of Hrun with context [train_network ?nx ?sp ?z ?sg ?lr ?n ?pf
                                     ?sh (set_statistics ?mu ?sigma ?s0)] =>
    destruct (training_keeps_statistics nx sg lr n pf sh s0 mu sigma)
      as [Hmu Hsigma];
    destruct (train_network nx sp z sg lr n pf sh
                (set_statistics mu sigma s0)) as [st [hist|e|]]
  end; [|done..].
  apply bind_ok in Hrun as (_ & _ & [= _ <-]).
  unfold param_values, trainable. simpl in *.
  apply lookup_total_correct in Hmu, Hsigma.
  split.
  - rewrite lookup_insert_ne by done. rewrite lookup_insert_eq.
    by rewrite Hmu.
  - rewrite lookup_insert_eq. by rewrite Hsigma.
Qed.

End MainFacts.

(** * The claims on concrete inputs *)

(** C1, where the code departs from it: both labels are present in the
    map with the non-negative values 0 and 12, yet only the row mapped to
    12 is retained.  The row mapped to 0 is dropped by the test
    [y_true > 0] of line 139, although the comment of line 140 drops only
    labels that are absent from the map, i.e. negative. *)
Theorem zero_label_row_dropped :
  mapped_labels two_label_map ["C:maj"; "C:min"]%string = [0; 12]
  ∧ filter_rows [10; 20] ["C:maj"; "C:min"]%string two_label_map
    = Ok ([20], [12])
  ∧ train_data
    <$> prepare_training_data CT_QUALITIES CT_QUALITY_MAP
          (λ d : list Z, Ok d) (λ _, ()) (λ _, ())
          [10; 20] ["C:maj"; "C:min"]%string two_label_map 50
    = Ok [20].
Proof. split; [|split]; vm_compute; reflexivity. Qed.

(** C2 fails as stated: a single row whose label maps to 5 survives the
    filter, the quality count inferred from it is [5 // 12 = 0], one
    template is generated, and the label 5 is not within [0, 1); the
    binding [templates[y_true]] raises IndexError. *)
Lemma label_outside_templates :
  filter_rows [1] ["F:maj"]%string {["F:maj"%string := 5]} = Ok ([1], [5])
  ∧ np_max [5] = Ok 5
  ∧ (∃ templates,
       generate_chroma_templates CT_QUALITIES CT_QUALITY_MAP (5 `div` 12)
         = Ok templates
       ∧ Z.of_nat (length templates) = 12 * (5 `div` 12) + 1
       ∧ ¬ Forall (λ l, 0 ≤ l < Z.of_nat (length templates)) [5])
  ∧ prepare_training_data CT_QUALITIES CT_QUALITY_MAP
      (λ d : list Z, Ok d) (λ _, ()) (λ _, ())
      [1] ["F:maj"]%string {["F:maj"%string := 5]} 50
    = Raise IndexError.
Proof.
  split; [vm_compute; reflexivity|]. split; [reflexivity|].
  split; [|vm_compute; reflexivity].
  exists [replicate 12 (1 # 12)%Q].
  split; [vm_compute; reflexivity|]. split; [reflexivity|].
  intros H. apply Forall_cons_1 in H as [H _]. simpl in H. lia.
Qed.

(** Two rows labelled 12 and 24: two qualities, 25 templates, and both
    bindings in range, the maximum 24 being the no-chord index. *)
Lemma retained_labels_bound_witness :
  ∃ templates,
    generate_chroma_templates CT_QUALITIES CT_QUALITY_MAP (24 `div` 12)
      = Ok templates
    ∧ Z.of_nat (length templates) = 12 * (24 `div` 12) + 1
    ∧ Forall (λ l, 0 ≤ l < 12 * (24 `div` 12) + 12) [12; 24]
    ∧ is_ok (np_take templates [12; 24]).
Proof.
  destruct (generate_chroma_templates CT_QUALITIES CT_QUALITY_MAP
              (24 `div` 12)) as [templates|e|] eqn:Hgen;
    [|vm_compute in Hgen; discriminate Hgen..].
  exists templates. split; [reflexivity|].
  destruct (retained_labels_bound CT_QUALITIES CT_QUALITY_MAP
              [1; 2] ["C:min"; "N"]%string
              (<["C:min"%string := 12]> {["N"%string := 24]})
              [1; 2] [12; 24] 24 templates)
    as (Hlen & Hbound & _ & Hbind).
  - vm_compute. reflexivity.
  - reflexivity.
  - exact Hgen.
  - split; [exact Hlen|]. split; [exact Hbound|].
    apply Hbind. reflexivity.
Defined.



Example interrupted_run_history :
  (train_network counter_next counter_step 0%nat (Some (3%nat, AtStep)) ()
     5 2 0%nat 0%nat).2 = Ok [0; 2; 4]%nat.
Proof. reflexivity. Qed.

(** The minor quality on root 3, read at pitch class 5. *)
Lemma template_is_rotation_witness :
  ∃ raw qual_array row v,
    raw_templates CT_QUALITIES CT_QUALITY_MAP 2 = Ok raw
    ∧ quality_array CT_QUALITIES CT_QUALITY_MAP 1 = Ok qual_array
    ∧ raw !! Z.to_nat (12 * 1 + 3) = Some row
    ∧ row !! Z.to_nat 5 = Some v
    ∧ qual_array !! Z.to_nat ((5 - 3) `mod` 12) = Some v
    ∧ rotate qual_array (3 + 12) = Ok row
    ∧ (length qual_array = 12%nat → rotate qual_array 12 = Ok qual_array).
Proof.
  destruct (raw_templates CT_QUALITIES CT_QUALITY_MAP 2) as [raw|e|] eqn:Hraw;
    [|vm_compute in Hraw; discriminate Hraw..].
  destruct (template_is_rotation CT_QUALITIES CT_QUALITY_MAP 2 raw 1 3 5 Hraw)
    as (qual_array & row & v & H); [lia..|].
  by exists raw, qual_array, row, v.
Defined.

Example minor_on_root_3 :
  (λ raw, raw !! 15%nat) <$> raw_templates CT_QUALITIES CT_QUALITY_MAP 2
  = Ok (Some [0; 0; 0; 1; 0; 0; 1; 0; 0; 0; 1; 0]).
Proof. vm_compute. reflexivity. Qed.

(** The full vocabulary: 157 templates. *)
Lemma template_count_and_order_witness :
  ∃ templates,
    generate_chroma_templates CT_QUALITIES CT_QUALITY_MAP 13 = Ok templates
    ∧ Z.of_nat (length templates) = 12 * 13 + 1
    ∧ (∀ q r, 0 ≤ q < 13 → 0 ≤ r < 12 →
         ∃ qual_array row,
           quality_array CT_QUALITIES CT_QUALITY_MAP q = Ok qual_array
           ∧ rotate qual_array r = Ok row
           ∧ templates !! Z.to_nat (12 * q + r)
             = Some (normalize_row (inject_Z <$> row)))
    ∧ templates !! Z.to_nat (12 * 13)
      = Some (normalize_row (inject_Z <$> np_ones 12))
    ∧ last templates = Some (replicate 12 (1 # 12)%Q).
Proof.
  apply (template_count_and_order CT_QUALITIES CT_QUALITY_MAP 13).
  - vm_compute. reflexivity.
  - lia.
Defined.

(** The C major template. *)
Lemma templates_normalized_witness :
  length template_C_maj = 12%nat
  ∧ Forall (λ v, 0 <= v)%Q template_C_maj
  ∧ (row_sum template_C_maj == 1)%Q.
Proof.
  apply (templates_normalized CT_QUALITIES CT_QUALITY_MAP 1 templates_maj).
  - vm_compute. reflexivity.
  - vm_compute. reflexivity.
  - apply (list_elem_of_lookup_2 _ 0%nat). reflexivity.
Defined.



(** A batch may straddle a reshuffle: on three rows with batches of two,
    the second pull reads the last index of one pass, reshuffles, and reads
    the first index of the next - here the same row twice. *)
Example pull_straddles_reshuffle :
  (b1 ← next reversing_shuffle [10; 20; 30] [1; 2; 3] 2
          (data_shuffler [10; 20; 30] 0%nat);
   b2 ← next reversing_shuffle [10; 20; 30] [1; 2; 3] 2 b1.2;
   Ok (b1.1, b2.1, np_random b1.2, np_random b2.2))
  = Ok ([30; 20], [3; 2], ([10; 10], [1; 1]), 1%nat, 2%nat).
Proof. vm_compute. reflexivity. Qed.


(** * Further properties *)

(** ** TemplateGenerator *)

Lemma map_result_first_error {A B} (f : A → result B) l1 x l2 e :
  Forall (λ a, is_ok (f a)) l1 → f x = Raise e →
  map_result f (l1 ++ x :: l2) = Raise e.
Proof.
  intros Hok Hx. induction Hok as [|a l1 [b Hb] _ IH]; simpl.
  - by rewrite Hx.
  - by rewrite Hb, bind_Ok_l, IH.
Qed.

Lemma map_result_ok_Forall {A B} (f : A → result B) xs :
  is_ok (map_result f xs) ↔ Forall (λ x, is_ok (f x)) xs.
Proof.
  split; [|apply map_result_total].
  intros [ys Hys%map_result_ok].
  induction Hys as [|x y xs ys Hxy _ IH]; constructor; [by exists y | done].
Qed.

Lemma int_of_char_ok c : is_ok (int_of_char c) ↔ is_digit c.
Proof.
  unfold int_of_char, is_digit. cbv zeta. case_bool_decide as Hc.
  - split; [done | by eexists].
  - split; [by intros [? ?] | done].
Qed.

Lemma length_list_ascii_of_string (bits : string) :
  length (String.list_ascii_of_string bits) = String.length bits.
Proof. induction bits as [|c bits IH]; simpl; [done | by rewrite IH]. Qed.

Lemma rotate_ok_length qual_array root_idx :
  is_ok (rotate qual_array root_idx) ↔ (12 ≤ length qual_array)%nat.
Proof.
  split; [|apply rotate_total].
  intros [row Hrow].
  destruct (rotate_lookup _ _ _ ((11 + root_idx) `mod` 12) Hrow)
    as (v & _ & Hv); [by apply Z.mod_pos_bound|].
  rewrite Zminus_mod_idemp_l in Hv.
  replace (11 + root_idx - root_idx) with 11 in Hv by lia.
  apply lookup_lt_Some in Hv. change (Z.to_nat (11 `mod` 12)) with 11%nat in Hv.
  lia.
Qed.

Lemma mod12_wrap (a : Z) : 12 ≤ a < 24 → a `mod` 12 = a - 12.
Proof.
  intros Ha. rewrite <- (Z_mod_plus_full a (-1) 12).
  rewrite Z.mod_small; lia.
Qed.

(** A rotation is the vector cut at [k = (-root_idx) mod 12] with the two
    parts exchanged. *)
Lemma rotate_as_cut qual_array root_idx row :
  length qual_array = 12%nat → rotate qual_array root_idx = Ok row →
  row = drop (Z.to_nat ((- root_idx) `mod` 12)) qual_array
        ++ take (Z.to_nat ((- root_idx) `mod` 12)) qual_array.
Proof.
  intros Hlen Hrot. pose proof (rotate_length _ _ _ Hrot) as Hrow.
  pose proof (Z.mod_pos_bound (- root_idx) 12 ltac:(lia)) as Hk.
  set (k := (- root_idx) `mod` 12) in *.
  apply list_eq. intros i.
  destruct (decide (i < 12)%nat) as [Hi|Hi].
  - destruct (rotate_lookup _ _ _ (Z.of_nat i) Hrot) as (v & Hv & Hbase);
      [lia|].
    rewrite Nat2Z.id in Hv. rewrite Hv.
    assert (Hidx : (Z.of_nat i - root_idx) `mod` 12
                   = (Z.of_nat i + k) `mod` 12).
    { unfold k. rewrite Zplus_mod_idemp_r. f_equal; lia. }
    rewrite Hidx in Hbase.
    destruct (decide (Z.of_nat i + k < 12)) as [Hlt|Hge].
    + rewrite Z.mod_small in Hbase by lia.
      rewrite lookup_app_l by (rewrite length_drop; lia).
      rewrite lookup_drop, <- Hbase. f_equal. lia.
    + rewrite mod12_wrap in Hbase by lia.
      rewrite lookup_app_r by (rewrite length_drop; lia).
      rewrite length_drop, lookup_take_lt by lia.
      rewrite <- Hbase. f_equal. lia.
  - rewrite !lookup_ge_None_2; [done| |lia].
    rewrite length_app, length_drop, length_take. lia.
Qed.

Lemma rotate_compose qual_array r1 r2 row :
  rotate qual_array r1 = Ok row →
  rotate row r2 = rotate qual_array (r1 + r2).
Proof.
  intros Hrot.
  assert (Hlen : (12 ≤ length qual_array)%nat)
    by (apply (rotate_ok_length _ r1); by exists row).
  pose proof (rotate_length _ _ _ Hrot) as Hrow.
  destruct (rotate_total row r2) as [row2 H2]; [lia|].
  destruct (rotate_total qual_array (r1 + r2) Hlen) as [row' H'].
  rewrite H2, H'. f_equal.
  pose proof (rotate_length _ _ _ H2) as Hl2.
  pose proof (rotate_length _ _ _ H') as Hl'.
  apply list_eq. intros i.
  destruct (decide (i < 12)%nat) as [Hi|Hi].
  - destruct (rotate_lookup _ _ _ (Z.of_nat i) H2) as (v & Hv & Hmid); [lia|].
    destruct (rotate_lookup _ _ _ (Z.of_nat i) H') as (u & Hu & Hbase); [lia|].
    destruct (rotate_lookup _ _ _ ((Z.of_nat i - r2) `mod` 12) Hrot)
      as (w & Hw & Hbase'); [by apply Z.mod_pos_bound|].
    rewrite Nat2Z.id in Hv, Hu. rewrite Hv, Hu. rewrite Hw in Hmid.
    injection Hmid as ->.
    rewrite Zminus_mod_idemp_l in Hbase'.
    replace (Z.of_nat i - r2 - r1) with (Z.of_nat i - (r1 + r2)) in Hbase'
      by lia.
    congruence.
  - by rewrite !lookup_ge_None_2 by lia.
Qed.

(** X3: rotations compose by adding the roots - rotating the template of
    root [r1] by [r2] gives the template of root [r1 + r2] - and, for a
    12-element vector, rotating back by [-r1] restores the vector and the
    rotated row is a reordering of it (the same entries, hence as many
    pitch classes and the same sum). *)
Theorem rotate_composes qual_array r1 r2 row :
  rotate qual_array r1 = Ok row →
  rotate row r2 = rotate qual_array (r1 + r2)
  ∧ (length qual_array = 12%nat →
     rotate row (- r1) = Ok qual_array ∧ row ≡ₚ qual_array).
Proof.
  intros Hrot. split; [by apply rotate_compose|].
  intros Hlen. split.
  - rewrite (rotate_compose _ _ _ _ Hrot).
    replace (r1 + - r1) with 0 by lia. by apply rotate_0.
  - rewrite (rotate_as_cut _ _ _ Hlen Hrot).
    rewrite Permutation_app_comm. by rewrite take_drop.
Qed.

Section MoreTemplateFacts.
  Variable QUALITIES : list string.
  Variable QUALITY_MAP : gmap string string.

Lemma quality_array_ok q :
  0 ≤ q →
  is_ok (quality_array QUALITIES QUALITY_MAP q)
  ↔ ∃ name bits,
      QUALITIES !! Z.to_nat q = Some name ∧ QUALITY_MAP !! name = Some bits
      ∧ Forall is_digit (String.list_ascii_of_string bits).
Proof.
  intros Hq. unfold quality_array, dict_getitem. split.
  - intros [qa (name & Hname & (bits & Hbits & Hqa)%bind_ok)%bind_ok].
    apply getitem_nonneg in Hname; [|done].
    destruct (QUALITY_MAP !! name) as [bits'|] eqn:Hmap; [|done].
    injection Hbits as ->. exists name, bits. split; [done|]. split; [done|].
    assert (Hok : is_ok (map_result int_of_char
                           (String.list_ascii_of_string bits)))
      by (by exists qa).
    apply map_result_ok_Forall in Hok.
    eapply Forall_impl; [exact Hok|]. intros c. by apply int_of_char_ok.
  - intros (name & bits & Hname & Hbits & Hdigits).
    apply (getitem_nonneg _ _ _ Hq) in Hname.
    rewrite Hname, bind_Ok_l, Hbits, bind_Ok_l.
    apply map_result_ok_Forall.
    eapply Forall_impl; [exact Hdigits|]. intros c. by apply int_of_char_ok.
Qed.

Lemma quality_block_ok q :
  0 ≤ q →
  is_ok (quality_block QUALITIES QUALITY_MAP q)
  ↔ ∃ name bits,
      QUALITIES !! Z.to_nat q = Some name ∧ QUALITY_MAP !! name = Some bits
      ∧ Forall is_digit (String.list_ascii_of_string bits)
      ∧ (12 ≤ String.length bits)%nat.
Proof.
  intros Hq. unfold quality_block. split.
  - intros [block (qa & Hqa & Hblock)%bind_ok].
    assert (Hok : is_ok (quality_array QUALITIES QUALITY_MAP q))
      by (by exists qa).
    apply (quality_array_ok q Hq) in Hok as (name & bits & Hname & Hbits & Hdig).
    exists name, bits. repeat split; try done.
    assert (Hrot : is_ok (rotate qa 0)).
    { assert (Hall : is_ok (map_result (rotate qa) (range 12)))
        by (by exists block).
      apply map_result_ok_Forall in Hall. rewrite Forall_forall in Hall.
      apply Hall, list_elem_of_lookup. exists 0%nat. reflexivity. }
    apply rotate_ok_length in Hrot.
    unfold quality_array, dict_getitem in Hqa.
    apply (getitem_nonneg _ _ _ Hq) in Hname.
    rewrite Hname, bind_Ok_l, Hbits, bind_Ok_l in Hqa.
    apply map_result_length in Hqa.
    rewrite <- length_list_ascii_of_string. by rewrite <- Hqa.
  - intros (name & bits & Hname & Hbits & Hdig & Hlen).
    destruct (proj2 (quality_array_ok q Hq)) as [qa Hqa]; [by eauto|].
    rewrite Hqa, bind_Ok_l. apply map_result_total, Forall_forall.
    intros r _. apply rotate_total.
    unfold quality_array, dict_getitem in Hqa.
    apply (getitem_nonneg _ _ _ Hq) in Hname.
    rewrite Hname, bind_Ok_l, Hbits, bind_Ok_l in Hqa.
    apply map_result_length in Hqa.
    rewrite Hqa, length_list_ascii_of_string. done.
Qed.

(** X1: template generation succeeds exactly when every requested quality
    index is within [CT.QUALITIES], the name found there is a key of
    [CT.QUALITY_MAP], and the string under it consists of decimal digits,
    at least 12 of them. *)
Theorem generate_succeeds_iff num_qualities :
  is_ok (generate_chroma_templates QUALITIES QUALITY_MAP num_qualities)
  ↔ ∀ q, 0 ≤ q < num_qualities →
      ∃ name bits,
        QUALITIES !! Z.to_nat q = Some name ∧ QUALITY_MAP !! name = Some bits
        ∧ Forall is_digit (String.list_ascii_of_string bits)
        ∧ (12 ≤ String.length bits)%nat.
Proof.
  assert (Hgen : is_ok (generate_chroma_templates QUALITIES QUALITY_MAP
                          num_qualities)
                 ↔ is_ok (map_result (quality_block QUALITIES QUALITY_MAP)
                            (range num_qualities))).
  { unfold generate_chroma_templates. rewrite raw_templates_blocks.
    destruct (map_result _ _) as [blocks|e|]; split; intros [? ?];
      try done; by eexists. }
  rewrite Hgen, map_result_ok_Forall, Forall_forall. split.
  - intros Hall q Hq. apply quality_block_ok; [lia|].
    apply Hall, list_elem_of_lookup. exists (Z.to_nat q).
    by apply lookup_range.
  - intros Hall q Hq. apply list_elem_of_lookup in Hq as [i Hi].
    apply lookup_seqZ in Hi as [-> Hi].
    apply quality_block_ok; [lia|]. apply Hall. lia.
Qed.

(** X2: over the 13-quality vocabulary, a quality count above 13 makes
    template generation raise IndexError, from the lookup
    [CT.QUALITIES[13]]. *)
Theorem generate_beyond_vocabulary num_qualities :
  vocabulary_ok QUALITIES QUALITY_MAP = true → 13 < num_qualities →
  generate_chroma_templates QUALITIES QUALITY_MAP num_qualities
  = Raise IndexError.
Proof.
  intros Hvoc HQ. unfold generate_chroma_templates.
  rewrite raw_templates_blocks.
  assert (Hsplit : range num_qualities
                   = range 13 ++ 13 :: seqZ 14 (num_qualities - 14)).
  { unfold range.
    replace num_qualities with (13 + (num_qualities - 13)) at 1 by lia.
    rewrite seqZ_app by lia. f_equal.
    rewrite (seqZ_cons (0 + 13)) by lia. f_equal. f_equal. lia. }
  rewrite Hsplit.
  rewrite (map_result_first_error _ _ _ _ IndexError); [done| |].
  - apply Forall_forall. intros q Hq.
    apply list_elem_of_lookup in Hq as [i Hi].
    apply lookup_seqZ in Hi as [-> Hi].
    destruct (vocabulary_quality_array QUALITIES QUALITY_MAP
                (0 + Z.of_nat i) Hvoc) as (qa & Hqa & Hlen & _); [lia|].
    unfold quality_block. rewrite Hqa, bind_Ok_l.
    apply map_result_total, Forall_forall. intros r _.
    apply rotate_total. lia.
  - unfold vocabulary_ok in Hvoc.
    apply andb_prop in Hvoc as [Hlen%bool_decide_eq_true _].
    unfold quality_block, quality_array, getitem. cbv zeta.
    rewrite Hlen. reflexivity.
Qed.

End MoreTemplateFacts.

(** ** BatchSampler *)

Section MoreSamplerFacts.
  Context {X Y rng : Type}.
  Variable shuffle : list Z → rng → list Z * rng.
  Variable data : list X.
  Variable labels : list Y.
  Variable batch_size : Z.

#[local] Abbreviation next' := (next shuffle data labels batch_size).
#[local] Abbreviation draws'' := (draws shuffle data labels).

Lemma draws_app m n s :
  draws'' (m + n) s
  = ('(d1, s1) ← draws'' m s;
     '(d2, s2) ← draws'' n s1;
     Ok (d1 ++ d2, s2)).
Proof.
  revert s. induction m as [|m IH]; intros s.
  - simpl. by destruct (draws'' n s) as [[d2 s2]|e|].
  - change (draws'' (S m + n) s) with
      ('(i, xy, s') ← draw shuffle data labels s;
       '(rest, s'') ← draws'' (m + n) s';
       Ok ((i, xy) :: rest, s'')).
    change (draws'' (S m) s) with
      ('(i, xy, s') ← draw shuffle data labels s;
       '(rest, s'') ← draws'' m s';
       Ok ((i, xy) :: rest, s'')).
    destruct (draw shuffle data labels s) as [[[i xy] s1]|e|]; [|done..].
    rewrite !bind_Ok_l, IH.
    destruct (draws'' m s1) as [[d1 s2]|e|]; [|done..].
    rewrite !bind_Ok_l.
    by destruct (draws'' n s2) as [[d2 s3]|e|].
Qed.

(** The inner loop with enough fuel is a run of draws, on any arrays. *)
Lemma fill_unrolls fuel (x_m : list X) (y_m : list Y) s :
  (Z.to_nat (batch_size - Z.of_nat (length x_m)) ≤ fuel)%nat →
  fill shuffle data labels batch_size fuel x_m y_m s
  = ('(ds, s') ← draws'' (Z.to_nat (batch_size - Z.of_nat (length x_m))) s;
     Ok (x_m ++ ds.*2.*1, y_m ++ ds.*2.*2, s')).
Proof.
  revert x_m y_m s. induction fuel as [|fuel IH]; intros x_m y_m s Hfuel.
  - simpl. rewrite bool_decide_eq_false_2 by lia.
    replace (Z.to_nat _) with 0%nat by lia. simpl. by rewrite !app_nil_r.
  - simpl. case_bool_decide as Hlt.
    + destruct (Z.to_nat (batch_size - Z.of_nat (length x_m))) as [|k] eqn:Hk;
        [lia|].
      simpl. destruct (draw shuffle data labels s) as [[[i [x y]] s1]|e|];
        [|done..].
      rewrite !bind_Ok_l. rewrite IH by (rewrite length_app; simpl; lia).
      replace (Z.to_nat (batch_size - Z.of_nat (length (x_m ++ [x])))) with k
        by (rewrite length_app; simpl; lia).
      destruct (draws'' k s1) as [[rest s2]|e|]; [|done..].
      simpl. by rewrite <- !app_assoc.
    + replace (Z.to_nat _) with 0%nat by lia. simpl. by rewrite !app_nil_r.
Qed.

Lemma next_draws s :
  next' s
  = ('(ds, s') ← draws'' (Z.to_nat batch_size) s;
     Ok (ds.*2.*1, ds.*2.*2, s')).
Proof.
  unfold next.
  rewrite fill_unrolls by (cbn [length Z.of_nat]; lia).
  cbn [length Z.of_nat]. by rewrite Z.sub_0_r.
Qed.

(** X4: the samples come out in one stream that does not depend on how
    it is cut into batches: [k] consecutive pulls return, end to end,
    exactly the rows that [k * batch_size] consecutive single-index draws
    select, and leave the sampler in the same state. *)
Theorem pulls_are_draws k s :
  pulls shuffle data labels batch_size k s
  = ('(ds, s') ← draws'' (k * Z.to_nat batch_size) s;
     Ok (ds.*2.*1, ds.*2.*2, s')).
Proof.
  revert s. induction k as [|k IH]; intros s; [done|].
  change (pulls shuffle data labels batch_size (S k) s) with
    ('(x_m, y_m, s') ← next' s;
     '(xs, ys, s'') ← pulls shuffle data labels batch_size k s';
     Ok (x_m ++ xs, y_m ++ ys, s'')).
  rewrite next_draws.
  replace (S k * Z.to_nat batch_size)%nat
    with (Z.to_nat batch_size + k * Z.to_nat batch_size)%nat by lia.
  rewrite draws_app.
  destruct (draws'' (Z.to_nat batch_size) s) as [[d1 s1]|e|]; [|done..].
  rewrite !bind_Ok_l. cbn beta iota. rewrite IH.
  destruct (draws'' (k * Z.to_nat batch_size) s1) as [[d2 s2]|e|]; [|done..].
  rewrite !bind_Ok_l. cbn beta iota. by rewrite !fmap_app.
Qed.

  Hypothesis shuffle_permutes : ∀ l g, (shuffle l g).1 ≡ₚ l.

(** X5: on a dataset without rows the first pull of a positive batch
    size raises IndexError, at the read [sample_idx[0]] of the empty index
    array. *)
Theorem empty_dataset_raises g :
  data = [] → 0 < batch_size →
  next' (data_shuffler data g) = Raise IndexError.
Proof.
  intros Hdata Hbatch. unfold next.
  destruct (Z.to_nat batch_size) as [|fuel] eqn:Hfuel; [lia|].
  simpl. rewrite bool_decide_eq_true_2 by (simpl; lia).
  unfold draw, exhausted, reshuffle, data_shuffler, num_samples.
  subst data. simpl.
  destruct (shuffle _ g) as [idx g'] eqn:Hsh.
  pose proof (shuffle_permutes (arange_int32 (Z.of_nat 0)) g) as Hperm.
  rewrite Hsh in Hperm. simpl in Hperm.
  apply Permutation_nil_r in Hperm. by subst idx.
Qed.

  Hypothesis data_nonempty : 0 < num_samples data ≤ 2 ^ 31.
  Hypothesis labels_cover : (length data ≤ length labels)%nat.

Lemma draw_exhausted s :
  exhausted data s = true →
  draw shuffle data labels s = draw shuffle data labels (reshuffle shuffle s).
Proof.
  intros Hex. unfold draw. rewrite Hex.
  assert (Hfresh : exhausted data (reshuffle shuffle s) = false).
  { unfold exhausted, reshuffle. destruct (shuffle _ _). simpl.
    apply bool_decide_eq_false. lia. }
  by rewrite Hfresh.
Qed.

Lemma drawn_pairs (ds : list (Z * (X * Y))) (f : Z → X * Y) :
  Forall (λ d, f d.1 = d.2) ds → ds.*2 = f <$> ds.*1.
Proof.
  induction 1 as [|d ds Hd _ IH]; [done|].
  rewrite !fmap_cons. by rewrite IH, Hd.
Qed.

(** X6: when the batch size equals the dataset size, a pull that starts
    with the cursor at the end - as the first pull does, and then every next
    one - reshuffles once and returns every row of the dataset exactly once,
    each feature with its own target, and leaves the cursor at the end
    again. *)
Theorem full_batch_is_epoch s :
  batch_size = num_samples data →
  shuffler_inv data s → read_ptr s = num_samples data →
  ∃ x_m y_m s',
    next' s = Ok (x_m, y_m, s')
    ∧ zip x_m y_m ≡ₚ zip data labels
    ∧ x_m ≡ₚ data
    ∧ shuffler_inv data s' ∧ read_ptr s' = num_samples data
    ∧ np_random s' = np_random (reshuffle shuffle s).
Proof.
  intros Hbatch Hinv Hptr.
  pose proof (reshuffle_inv shuffle data labels shuffle_permutes
                data_nonempty labels_cover s Hinv) as Hinv1.
  assert (Hzero : read_ptr (reshuffle shuffle s) = 0).
  { unfold reshuffle. by destruct (shuffle _ _). }
  assert (Hsame : draws'' (Z.to_nat batch_size) s
                  = draws'' (Z.to_nat batch_size) (reshuffle shuffle s)).
  { destruct (Z.to_nat batch_size) as [|n] eqn:Hn; [lia|].
    simpl. rewrite draw_exhausted; [done|].
    apply bool_decide_eq_true. lia. }
  destruct (draws_spec shuffle data labels shuffle_permutes data_nonempty
              labels_cover (Z.to_nat batch_size) _ Hinv1)
    as (ds & s' & Hds & Hlen & Hinv' & Hall).
  assert (Hfit : read_ptr (reshuffle shuffle s)
                 + Z.of_nat (Z.to_nat batch_size) ≤ num_samples data)
    by (rewrite Hzero; lia).
  destruct (draws_in_order shuffle data labels shuffle_permutes data_nonempty
              labels_cover _ _ _ _ Hinv1 Hfit Hds)
    as (Hidx & _ & Hgen & Hptr').
  rewrite Hzero in Hidx, Hptr'.
  change (Z.to_nat 0) with 0%nat in Hidx. rewrite drop_0 in Hidx.
  destruct Hinv1 as [Hperm _].
  pose proof (Permutation_length Hperm) as Hl. rewrite length_range in Hl.
  rewrite take_ge in Hidx by lia.
  exists ds.*2.*1, ds.*2.*2, s'.
  rewrite next_draws, Hsame, Hds, bind_Ok_l.
  split; [done|].
  destruct (lookup_lt_is_Some_2 data 0) as [x0 _];
    [unfold num_samples in data_nonempty; lia|].
  destruct (lookup_lt_is_Some_2 labels 0) as [y0 _];
    [unfold num_samples in data_nonempty; lia|].
  set (f := λ i : Z, (default x0 (data !! Z.to_nat i),
                      default y0 (labels !! Z.to_nat i))).
  assert (Hpairs : ds.*2 = f <$> ds.*1).
  { apply drawn_pairs. eapply Forall_impl; [exact Hall|].
    intros [i [x y]] [Hx Hy]. unfold f. simpl in *. by rewrite Hx, Hy. }
  assert (Hzip : zip data labels = f <$> range (num_samples data)).
  { apply list_eq. intros i. rewrite lookup_zip_with, list_lookup_fmap.
    destruct (decide (i < length data)%nat) as [Hi|Hi].
    - unfold num_samples, range. rewrite lookup_seqZ_lt by lia.
      destruct (lookup_lt_is_Some_2 data i Hi) as [x Hx].
      destruct (lookup_lt_is_Some_2 labels i) as [y Hy]; [lia|].
      rewrite Hx, Hy. simpl. unfold f.
      replace (Z.to_nat (0 + Z.of_nat i)) with i by lia.
      by rewrite Hx, Hy.
    - rewrite (lookup_ge_None_2 data) by lia.
      unfold num_samples, range. by rewrite lookup_seqZ_ge by lia. }
  assert (Hz : zip ds.*2.*1 ds.*2.*2 ≡ₚ zip data labels).
  { rewrite zip_fst_snd, Hpairs, Hzip, Hidx. by rewrite Hperm. }
  split; [done|]. split.
  - apply (fmap_Permutation fst) in Hz.
    rewrite zip_fst_snd in Hz. rewrite Hz.
    by rewrite fst_zip by lia.
  - split; [done|]. split; [lia | done].
Qed.

End MoreSamplerFacts.

(** ** DatasetPreparer *)

Lemma np_mask_zip {A} (a : list A) (y_true : list Z) rows :
  np_mask a (valid_idx y_true) = Ok rows →
  zip rows (filter (λ y, 0 < y) y_true)
  = filter (λ p, 0 < p.2) (zip a y_true).
Proof.
  intros Hmask. pose proof (np_mask_ok_length _ _ _ Hmask) as Hlen.
  unfold np_mask in Hmask. rewrite bool_decide_eq_true_2 in Hmask by done.
  injection Hmask as <-. unfold valid_idx in *. rewrite length_fmap in Hlen.
  revert y_true Hlen. induction a as [|x a IH]; intros [|y ys] Hlen;
    try discriminate; [done|].
  injection Hlen as Hlen. rewrite fmap_cons. cbn [zip zip_with].
  rewrite !filter_cons. simpl.
  destruct (decide (0 < y)) as [Hy|Hy].
  - rewrite bool_decide_eq_true_2 by done.
    rewrite decide_True by done. rewrite fmap_cons. cbn [zip zip_with fst].
    f_equal. by apply IH.
  - rewrite bool_decide_eq_false_2 by done.
    rewrite decide_False by done. by apply IH.
Qed.

(** X7: the filter keeps features and labels aligned and in their
    original order: the retained (feature, mapped label) pairs are exactly
    the input rows, in order, whose label is a key of the map with a
    strictly positive value. *)
Theorem retained_rows_aligned {feature : Type} (data : list feature)
    labels label_map data' y_true :
  filter_rows data labels label_map = Ok (data', y_true) →
  zip data' y_true
  = filter (λ p, 0 < p.2) (zip data (mapped_labels label_map labels))
  ∧ ∀ x l, (x, l) ∈ zip data' y_true
      ↔ 0 < l ∧ ∃ i name, data !! i = Some x ∧ labels !! i = Some name
                          ∧ label_map !! name = Some l.
Proof.
  intros Hfilter.
  assert (Hzip : zip data' y_true
                 = filter (λ p, 0 < p.2)
                     (zip data (mapped_labels label_map labels))).
  { unfold filter_rows in Hfilter.
    apply bind_ok in Hfilter as (d & Hd & Hrest).
    apply bind_ok in Hrest as (y & Hy & [= <- <-]).
    rewrite np_mask_self in Hy. injection Hy as <-.
    by apply np_mask_zip. }
  split; [done|]. intros x l. rewrite Hzip, list_elem_of_filter. simpl.
  rewrite list_elem_of_lookup. split.
  - intros [Hpos [i Hi]]. split; [done|].
    apply lookup_zip_with_Some in Hi as (x' & l' & [= -> ->] & Hx & Hl).
    unfold mapped_labels in Hl. rewrite list_lookup_fmap in Hl.
    destruct (labels !! i) as [name|] eqn:Hname; [|done].
    exists i, name. split; [done|]. split; [done|].
    simpl in Hl. injection Hl as Hl.
    destruct (label_map !! name) as [v|]; simpl in Hl; [by subst|lia].
  - intros [Hpos (i & name & Hx & Hname & Hl)]. split; [done|]. exists i.
    apply lookup_zip_with_Some. exists x, l. split; [done|]. split; [done|].
    unfold mapped_labels. rewrite list_lookup_fmap, Hname. simpl.
    by rewrite Hl.
Qed.

Section MorePreparerFacts.
  Context {feature pooled stat : Type}.
  Variable QUALITIES : list string.
  Variable QUALITY_MAP : gmap string string.
  Variable cqt_pool : list feature → result (list pooled).
  Variable np_mean : list pooled → stat.
  Variable np_std : list pooled → stat.

(** X8: when [prepare_training_data] returns, the generator's data are
    the pooled retained rows, the statistics are the mean and deviation of
    those pooled rows, and the targets are one template per retained row, in
    order, namely [templates[label]] for the templates generated for
    [max label // 12] qualities; over a well-formed vocabulary each target
    has 12 non-negative entries that sum to 1. *)
Theorem prepared_targets data labels label_map batch_size prep :
  vocabulary_ok QUALITIES QUALITY_MAP = true →
  prepare_training_data QUALITIES QUALITY_MAP cqt_pool np_mean np_std
    data labels label_map batch_size = Ok prep →
  ∃ data' y_true y_max templates,
    filter_rows data labels label_map = Ok (data', y_true)
    ∧ cqt_pool data' = Ok (train_data prep)
    ∧ stats_mu prep = np_mean (train_data prep)
    ∧ stats_sigma prep = np_std (train_data prep)
    ∧ train_batch_size prep = batch_size
    ∧ np_max y_true = Ok y_max
    ∧ generate_chroma_templates QUALITIES QUALITY_MAP (y_max `div` 12)
      = Ok templates
    ∧ Forall2 (λ l t, templates !! Z.to_nat l = Some t)
              y_true (train_targets prep)
    ∧ Forall (λ t, length t = 12%nat ∧ Forall (λ v, 0 <= v)%Q t
                   ∧ (row_sum t == 1)%Q)
             (train_targets prep).
Proof.
  intros Hvoc Hprep. unfold prepare_training_data in Hprep.
  apply bind_ok in Hprep as ([data' y_true] & Hfilter & Hprep).
  apply bind_ok in Hprep as (pooled_data & Hpool & Hprep).
  apply bind_ok in Hprep as (y_max & Hmax & Hprep).
  apply bind_ok in Hprep as (templates & Hgen & Hprep).
  apply bind_ok in Hprep as (targets & Htake & [= <-]).
  exists data', y_true, y_max, templates. simpl.
  do 7 (split; [done|]).
  destruct (filter_rows_spec _ _ _ _ _ Hfilter) as (_ & _ & _ & _ & Hpos).
  assert (Hbind : Forall2 (λ l t, templates !! Z.to_nat l = Some t)
                          y_true targets).
  { apply map_result_ok in Htake.
    apply Forall2_same_length_lookup in Htake as [Hlen Hget].
    apply Forall2_same_length_lookup. split; [done|].
    intros i l t Hl Ht. specialize (Hget i l t Hl Ht).
    apply getitem_nonneg in Hget; [done|].
    rewrite Forall_forall in Hpos.
    assert (0 < l) by (apply Hpos, list_elem_of_lookup; eauto). lia. }
  split; [done|].
  apply Forall_forall. intros t Ht.
  apply list_elem_of_lookup in Ht as [i Hi].
  destruct (Forall2_lookup_r _ _ _ _ _ Hbind Hi) as (l & _ & Htl).
  unfold generate_chroma_templates in Hgen.
  apply bind_ok in Hgen as (raw & Hraw & [= <-]).
  unfold lp_norm1, np_array in Htl. rewrite !list_lookup_fmap in Htl.
  destruct (raw !! Z.to_nat l) as [row|] eqn:Hrow; [|done].
  injection Htl as <-.
  destruct (raw_templates_rows _ _ _ _ row Hvoc Hraw)
    as (Hlen & Hnn & Hpos'); [apply list_elem_of_lookup; eauto|].
  split.
  - unfold normalize_row. by rewrite !length_fmap.
  - by apply normalize_row_unit.
Qed.

End MorePreparerFacts.

(** ** TrainingLoop *)

Lemma progress_from_snoc {loss} (pf n : Z) (hist : list loss) (l : loss) :
  progress_from pf n (hist ++ [l])
  = progress_from pf n hist
    ++ (if bool_decide ((n + Z.of_nat (length hist)) `mod` pf = 0)
        then [Progress (n + Z.of_nat (length hist)) l] else []).
Proof.
  revert n. induction hist as [|h hist IH]; intros n.
  - simpl. rewrite Z.add_0_r. by rewrite app_nil_r.
  - cbn [app progress_from length]. rewrite IH, <- app_assoc.
    by replace (n + 1 + Z.of_nat (length hist))
      with (n + Z.of_nat (S (length hist))) by lia.
Qed.

Section MoreTrainingFacts.
  Context {gen batch store loss rate : Type}.
  Variable shuffler_next : gen → result (batch * gen).
  Variable objective_fx : batch → rate → store → result (loss * store).
  Variable zero : loss.
  Variable sig : sigint.
  Variable learning_rate : rate.
  Variable num_iterations : Z.
  Variable print_frequency : Z.

#[local] Abbreviation body2 :=
  (body shuffler_next objective_fx sig learning_rate print_frequency).
#[local] Abbreviation loop2 :=
  (while_loop shuffler_next objective_fx sig learning_rate num_iterations
              print_frequency).
#[local] Abbreviation train2 :=
  (train_network shuffler_next objective_fx zero sig learning_rate
                 num_iterations print_frequency).

(** What a pass of the body prints: the progress line of its iteration
    when it runs to its end and the print frequency divides [n_iter],
    nothing otherwise. *)
Lemma body_console st st' r :
  0 ≤ n_iter st → body2 st = (st', r) →
  (r = Ok ()
   ∧ ∃ l, n_iter st < Z.of_nat (length (train_loss st))
          ∧ train_loss st' = <[Z.to_nat (n_iter st) := l]> (train_loss st)
          ∧ n_iter st' = n_iter st + 1
          ∧ console st'
            = console st
              ++ (if bool_decide (n_iter st `mod` print_frequency = 0)
                  then [Progress (n_iter st) l] else []))
  ∨ (r ≠ Ok () ∧ n_iter st' = n_iter st ∧ console st' = console st
     ∧ length (train_loss st') = length (train_loss st)
     ∧ take (Z.to_nat (n_iter st)) (train_loss st')
       = take (Z.to_nat (n_iter st)) (train_loss st)).
Proof.
  intros Hn. unfold body. cbv zeta.
  destruct (lands sig (n_iter st) AtPull).
  { intros [= <- <-]. by right. }
  destruct (shuffler_next (shuffler_state st)) as [[b g]|e|].
  2,3: intros [= <- <-]; by right.
  cbn [train_loss n_iter shuffler_state params console].
  destruct (lands sig (n_iter st) AtStep).
  { intros [= <- <-]. by right. }
  destruct (objective_fx b learning_rate (params st)) as [[l p]|e|].
  2,3: intros [= <- <-]; by right.
  destruct (setitem (train_loss st) (n_iter st) l) as [tl|e|] eqn:Hset.
  2,3: intros [= <- <-]; by right.
  apply setitem_inv in Hset as [Hlt ->].
  destruct (lands sig (n_iter st) AtIncrement).
  { intros [= <- <-]. right. cbn [train_loss n_iter console].
    by rewrite length_insert, take_insert_ge by lia. }
  case_bool_decide as Hpf.
  { intros [= <- <-]. right. cbn [train_loss n_iter console].
    by rewrite length_insert, take_insert_ge by lia. }
  intros [= <- <-]. left. split; [done|]. exists l.
  cbn [train_loss n_iter console]. split; [lia|]. split; [done|].
  split; [done|]. by case_bool_decide; rewrite ?app_nil_r.
Qed.

Lemma while_loop_console fuel st :
  0 ≤ n_iter st ≤ Z.of_nat (length (train_loss st)) →
  console st
  = progress_lines print_frequency
      (take (Z.to_nat (n_iter st)) (train_loss st)) →
  console (loop2 fuel st).1
  = progress_lines print_frequency
      (take (Z.to_nat (n_iter (loop2 fuel st).1))
            (train_loss (loop2 fuel st).1))
  ∧ 0 ≤ n_iter (loop2 fuel st).1
      ≤ Z.of_nat (length (train_loss (loop2 fuel st).1))
  ∧ length (train_loss (loop2 fuel st).1) = length (train_loss st)
  ∧ ((loop2 fuel st).2 = Ok () → ¬ n_iter (loop2 fuel st).1 < num_iterations).
Proof.
  revert st. induction fuel as [|fuel IH]; intros st Hn Hcon.
  - simpl. case_bool_decide; simpl; repeat split; try done; lia.
  - simpl. case_bool_decide as Hlt;
      [|simpl; repeat split; try done; lia].
    destruct (body2 st) as [st1 r] eqn:Hbody.
    destruct (body_console _ _ _ (proj1 Hn) Hbody)
      as [(-> & l & Hlen & Htl & Hn1 & Hout)
         |(Hr & Hn1 & Hout & Hlen & Htake)].
    + destruct (IH st1) as (H1 & H2 & H3 & H4).
      * rewrite Hn1, Htl, length_insert. lia.
      * rewrite Hout, Hcon, Hn1, Htl.
        replace (Z.to_nat (n_iter st + 1)) with (S (Z.to_nat (n_iter st)))
          by lia.
        rewrite (take_S_r _ _ l) by (apply list_lookup_insert_eq; lia).
        rewrite take_insert_ge by lia.
        unfold progress_lines. rewrite progress_from_snoc.
        rewrite length_take_le by lia.
        by replace (0 + Z.of_nat (Z.to_nat (n_iter st))) with (n_iter st)
          by lia.
      * rewrite H3, Htl, length_insert in *. done.
    + destruct r as [[]|e|]; [done|..]; simpl;
        rewrite Hn1, Hout, Htake, Hlen; repeat split; try done; lia.
Qed.


#[local] Abbreviation left_at' := (left_at shuffler_next objective_fx learning_rate).
#[local] Abbreviation iterate2 := (iterate shuffler_next objective_fx learning_rate).
#[local] Abbreviation left_by' :=
  (left_by shuffler_next objective_fx learning_rate sig num_iterations).

Lemma body_interrupted_state st st' r :
  (∀ g, is_ok (shuffler_next g)) →
  (∀ b s, is_ok (objective_fx b learning_rate s)) →
  0 ≤ n_iter st < Z.of_nat (length (train_loss st)) →
  interrupted_at sig (n_iter st) = true →
  body2 st = (st', r) →
  ∃ k q, sig = Some (k, q) ∧ Z.of_nat k = n_iter st
         ∧ left_at' q (shuffler_state st) (params st)
                    (shuffler_state st') (params st').
Proof.
  intros Hpull Hstep Hn Hint.
  destruct sig as [[k q]|] eqn:Hsig; [|done].
  simpl in Hint. apply bool_decide_eq_true in Hint.
  intros Hbody. exists k, q. split; [done|]. split; [done|].
  unfold body in Hbody. cbv zeta in Hbody.
  unfold lands in Hbody.
  destruct (Hpull (shuffler_state st)) as [[b g] Hb].
  destruct (Hstep b (params st)) as [[l p] Hl].
  rewrite Hb in Hbody.
  cbn [train_loss n_iter shuffler_state params console] in Hbody.
  rewrite Hl, setitem_ok in Hbody by lia.
  destruct q.
  - rewrite bool_decide_eq_true_2 in Hbody by done.
    injection Hbody as <- _. by split.
  - rewrite bool_decide_eq_false_2 in Hbody by (by intros [_ ?]).
    rewrite bool_decide_eq_true_2 in Hbody by done.
    injection Hbody as <- _. simpl. split; [by exists b | done].
  - rewrite !(bool_decide_eq_false_2 (_ ∧ AtIncrement = _)) in Hbody
      by (by intros [_ ?]).
    rewrite bool_decide_eq_true_2 in Hbody by done.
    injection Hbody as <- _. simpl. by exists b, l.
Qed.

Lemma while_loop_state g0 p0 fuel st trace :
  (∀ g, is_ok (shuffler_next g)) →
  (∀ b s, is_ok (objective_fx b learning_rate s)) →
  print_frequency ≠ 0 →
  length (train_loss st) = Z.to_nat num_iterations →
  0 ≤ n_iter st ≤ completed sig num_iterations →
  (Z.to_nat (num_iterations - n_iter st) ≤ fuel)%nat →
  iterate2 (Z.to_nat (n_iter st)) g0 p0
    = Ok (trace, (shuffler_state st, params st)) →
  ∃ trace' gk pk,
    iterate2 (Z.to_nat (completed sig num_iterations)) g0 p0
      = Ok (trace', (gk, pk))
    ∧ left_by' gk pk (shuffler_state (loop2 fuel st).1)
                    (params (loop2 fuel st).1).
Proof.
  intros Hpull Hstep Hpf. revert st trace.
  pose proof (completed_le sig num_iterations) as Hle.
  assert (Hdone : ∀ (st : train_state gen store loss) trace,
            0 ≤ n_iter st ≤ completed sig num_iterations →
            ¬ n_iter st < num_iterations →
            iterate2 (Z.to_nat (n_iter st)) g0 p0
              = Ok (trace, (shuffler_state st, params st)) →
            ∃ trace' gk pk,
              iterate2 (Z.to_nat (completed sig num_iterations)) g0 p0
                = Ok (trace', (gk, pk))
              ∧ left_by' gk pk (shuffler_state st) (params st)).
  { intros st trace Hn Hge Hiter.
    exists trace, (shuffler_state st), (params st).
    replace (completed sig num_iterations) with (n_iter st) by lia.
    split; [done|]. unfold left_by.
    destruct sig as [[k q]|]; [|done]. simpl in *.
    by rewrite bool_decide_eq_false_2 by lia. }
  induction fuel as [|fuel IH]; intros st trace Hlen Hn Hfuel Hiter.
  - simpl. rewrite bool_decide_eq_false_2 by lia. simpl.
    eapply Hdone; [done|lia|done].
  - simpl. case_bool_decide as Hlt; [|simpl; by eapply Hdone].
    destruct (body2 st) as [st1 r] eqn:Hbody.
    destruct (body_cases _ _ _ _ _ _ _ _ (proj1 Hn) Hbody)
      as [(-> & Hint & _ & b & g & l & p & out & Hb & Hl & _ & ->)
         |(Hr & Hn1 & _ & _ & Hwhy)].
    + apply (IH _ (trace ++ [(b, params st, l)])); cbn [n_iter train_loss
        shuffler_state params].
      * by rewrite length_insert.
      * pose proof (completed_next _ _ _ Hint (proj2 Hn) Hlt). lia.
      * lia.
      * replace (Z.to_nat (n_iter st + 1)) with (S (Z.to_nat (n_iter st)))
          by lia.
        by eapply iterate_snoc.
    + assert (Hin : n_iter st < Z.of_nat (length (train_loss st))) by lia.
      destruct (Hwhy Hpull Hstep Hin Hpf) as [-> Hint]. simpl.
      destruct (body_interrupted_state _ _ _ Hpull Hstep
                  (conj (proj1 Hn) Hin) Hint Hbody)
        as (k & q & Hsig & Hk & Hleft).
      exists trace, (shuffler_state st), (params st).
      rewrite (completed_interrupted _ _ _ Hint Hlt).
      split; [done|]. unfold left_by. rewrite Hsig.
      by rewrite bool_decide_eq_true_2 by lia.
Qed.

(** X10: with collaborators that do not raise, a run leaves the
    generator and the parameters as the iterations that ran to their end
    left them, except for what the interrupted iteration had already done:
    an interrupt between pull and step has consumed one more batch, and an
    interrupt after the step has consumed the batch and applied its update,
    so that the parameters are one update ahead of the returned history. *)
Theorem state_after_run g0 p0 :
  (∀ g, is_ok (shuffler_next g)) →
  (∀ b s, is_ok (objective_fx b learning_rate s)) →
  0 ≤ num_iterations → print_frequency ≠ 0 →
  ∃ trace gk pk,
    iterate2 (Z.to_nat (completed sig num_iterations)) g0 p0
      = Ok (trace, (gk, pk))
    ∧ (train2 g0 p0).2 = Ok trace.*2
    ∧ left_by' gk pk (shuffler_state (train2 g0 p0).1)
                    (params (train2 g0 p0).1).
Proof.
  intros Hpull Hstep Hnum Hpf.
  assert (Hc0 : 0 ≤ completed sig num_iterations)
    by (destruct sig as [[k q]|]; simpl; lia).
  set (st0 := TrainState (replicate (Z.to_nat num_iterations) zero) 0
                         g0 p0 []).
  destruct (while_loop_state g0 p0 (Z.to_nat num_iterations) st0 []
              Hpull Hstep Hpf) as (trace & gk & pk & Hiter & Hleft).
  { simpl. by rewrite length_replicate. }
  { simpl. lia. }
  { simpl. lia. }
  { done. }
  destruct (while_loop_count shuffler_next objective_fx sig learning_rate
              num_iterations print_frequency (Z.to_nat num_iterations) st0
              Hpull Hstep Hpf) as [Hcount Hres].
  { simpl. by rewrite length_replicate. }
  { simpl. lia. }
  { simpl. lia. }
  destruct (while_loop_trace shuffler_next objective_fx sig learning_rate
              num_iterations print_frequency g0 p0
              (Z.to_nat num_iterations) st0 [])
    as (trace2 & final & _ & Hiter2 & Htake); [done..|].
  rewrite Hcount, Hiter in Hiter2. injection Hiter2 as <- <-.
  exists trace, gk, pk. split; [done|].
  unfold train_network. rewrite bool_decide_eq_false_2 by lia.
  fold st0.
  destruct (loop2 (Z.to_nat num_iterations) st0) as [st r]. simpl in *.
  rewrite Hcount in Htake.
  destruct Hres as [-> | ->]; simpl; by rewrite Hcount, Htake.
Qed.

(** X11: with a print frequency of 0 and at least one iteration
    requested, the first pass pulls a batch, applies its update, and then
    raises ZeroDivisionError at [n_iter % print_frequency]: no history is
    returned although the parameters have moved. *)
Theorem zero_print_frequency g0 p0 b g l p :
  print_frequency = 0 → 0 < num_iterations →
  interrupted_at sig 0 = false →
  shuffler_next g0 = Ok (b, g) →
  objective_fx b learning_rate p0 = Ok (l, p) →
  (train2 g0 p0).2 = Raise ZeroDivisionError
  ∧ params (train2 g0 p0).1 = p
  ∧ shuffler_state (train2 g0 p0).1 = g
  ∧ console (train2 g0 p0).1 = [].
Proof.
  intros Hpf Hnum Hint Hb Hl.
  assert (Hlands : ∀ q, lands sig 0 q = false).
  { intros q. destruct (lands sig 0 q) eqn:Hq; [|done].
    apply lands_interrupted in Hq. congruence. }
  unfold train_network. rewrite bool_decide_eq_false_2 by lia.
  destruct (Z.to_nat num_iterations) as [|fuel] eqn:Hfuel; [lia|].
  cbn [while_loop n_iter]. rewrite bool_decide_eq_true_2 by lia.
  unfold body. cbn [train_loss n_iter shuffler_state params console].
  rewrite !Hlands, Hb.
  cbn [train_loss n_iter shuffler_state params console].
  rewrite Hl, setitem_ok by (rewrite length_replicate; lia).
  rewrite bool_decide_eq_true_2 by done. done.
Qed.

End MoreTrainingFacts.

(** ** Saving and the whole run *)

Lemma foldl_insert_lookup {V} `{!Inhabited V} (s acc : gmap string V)
    (names : list string) (name : string) :
  foldl (λ values n, <[n := s !!! n]> values) acc names !! name
  = if decide (name ∈ names) then Some (s !!! name) else acc !! name.
Proof.
  revert acc. induction names as [|n names IH]; intros acc; cbn [foldl].
  - destruct (decide (name ∈ [])) as [Hin|_]; [|done].
    by apply elem_of_nil in Hin.
  - rewrite IH.
    destruct (decide (name ∈ names)) as [Hin|Hnin];
      destruct (decide (name ∈ n :: names)) as [Hin'|Hnin']; try done.
    + exfalso. apply Hnin'. by right.
    + apply elem_of_cons in Hin' as [->|?]; [|done].
      by rewrite lookup_insert_eq.
    + rewrite lookup_insert_ne; [done|].
      intros ->. apply Hnin'. by left.
Qed.

Section MoreMainFacts.
  Context {feature pooled tensor scalar rng : Type}.
  Context `{!Theano tensor scalar, !Inhabited tensor}.
  Variable QUALITIES : list string.
  Variable QUALITY_MAP : gmap string string.
  Variable cqt_pool : list feature → result (list pooled).
  Variable np_mean : list pooled → tensor.
  Variable np_std : list pooled → tensor.
  Variable shuffle : list Z → rng → list Z * rng.
  Variable np_array_x : list pooled → tensor.
  Variable np_array_y : list (list Q) → tensor.

#[local] Abbreviation main' :=
  (main QUALITIES QUALITY_MAP cqt_pool np_mean np_std shuffle
        np_array_x np_array_y).
#[local] Abbreviation prepare' :=
  (prepare_training_data QUALITIES QUALITY_MAP cqt_pool np_mean np_std).

(** X12: what [save_parameters] collects is a snapshot of exactly the
    listed variables: a listed name is saved with the variable's current
    value, and no other name is saved. *)
Theorem param_values_snapshot (names : list string) (s : shared tensor)
    (name : string) :
  param_values names s !! name
  = if decide (name ∈ names) then Some (s !!! name) else None.
Proof.
  unfold param_values. rewrite foldl_insert_lookup.
  by destruct (decide (name ∈ names)).
Qed.

(** X13: when the loss history comes back empty - no iteration was
    requested, or the interrupt arrives before the first batch is pulled -
    [main] raises IndexError at [loss[-1]] and never reaches
    [save_parameters]. *)
Theorem main_empty_history data labels label_map max_iterations batch_size
    print_frequency (learning_rate : scalar) weights0_init (g : rng) sig
    prep :
  prepare_training_data QUALITIES QUALITY_MAP cqt_pool np_mean np_std
    data labels label_map batch_size = Ok prep →
  max_iterations = 0 ∨ (0 < max_iterations ∧ sig = Some (0%nat, AtPull)) →
  main QUALITIES QUALITY_MAP cqt_pool np_mean np_std shuffle
       np_array_x np_array_y data labels label_map max_iterations
       batch_size print_frequency learning_rate weights0_init g sig
  = Raise IndexError.
Proof.
  intros Hprep Hwhy. unfold main, build_chroma_transform.
  rewrite Hprep, bind_Ok_l. unfold train_network.
  destruct Hwhy as [-> | [Hpos ->]].
  - reflexivity.
  - rewrite bool_decide_eq_false_2 by lia.
    destruct (Z.to_nat max_iterations) as [|fuel] eqn:Hfuel; [lia|].
    cbn [while_loop n_iter]. rewrite bool_decide_eq_true_2 by lia.
    reflexivity.
Qed.


End MoreMainFacts.

(** ** From preparation to the first batch *)

Section PreparedGenerator.
  Context {feature pooled stat rng : Type}.
  Variable QUALITIES : list string.
  Variable QUALITY_MAP : gmap string string.
  Variable cqt_pool : list feature → result (list pooled).
  Variable np_mean : list pooled → stat.
  Variable np_std : list pooled → stat.
  Variable shuffle : list Z → rng → list Z * rng.

(** X15: when [prepare_training_data] returns and pooling kept one row
    per retained row, the generator it returns is bound to a non-empty
    dataset with exactly one target per row, so that (for a shuffle that
    permutes, at most 2^31 rows and a non-negative batch size) its first
    pull succeeds with [batch_size] features and [batch_size] targets. *)
Theorem prepared_generator_pulls data labels label_map batch_size prep g :
  (∀ l r, (shuffle l r).1 ≡ₚ l) →
  prepare_training_data QUALITIES QUALITY_MAP cqt_pool np_mean np_std
    data labels label_map batch_size = Ok prep →
  (∀ data' y_true, filter_rows data labels label_map = Ok (data', y_true) →
     length (train_data prep) = length data') →
  Z.of_nat (length (train_data prep)) ≤ 2 ^ 31 → 0 ≤ batch_size →
  (0 < length (train_data prep))%nat
  ∧ length (train_targets prep) = length (train_data prep)
  ∧ ∃ x_m y_m s',
      next shuffle (train_data prep) (train_targets prep)
           (train_batch_size prep) (data_shuffler (train_data prep) g)
        = Ok (x_m, y_m, s')
      ∧ Z.of_nat (length x_m) = batch_size
      ∧ Z.of_nat (length y_m) = batch_size.
Proof.
  intros Hperm Hprep Hrows Hsize Hbatch.
  unfold prepare_training_data in Hprep.
  apply bind_ok in Hprep as ([data' y_true] & Hfilter & Hprep).
  apply bind_ok in Hprep as (pooled_data & Hpool & Hprep).
  apply bind_ok in Hprep as (y_max & Hmax & Hprep).
  apply bind_ok in Hprep as (templates & Hgen & Hprep).
  apply bind_ok in Hprep as (targets & Htake & [= <-]).
  specialize (Hrows _ _ Hfilter). simpl in *.
  destruct (filter_rows_spec _ _ _ _ _ Hfilter) as (_ & _ & Hlen & _).
  apply map_result_length in Htake.
  assert (Hne : (0 < length y_true)%nat)
    by (destruct y_true; [discriminate Hmax | simpl; lia]).
  split; [lia|]. split; [lia|].
  assert (Hdata : 0 < num_samples pooled_data ≤ 2 ^ 31)
    by (unfold num_samples; lia).
  assert (Hcover : (length pooled_data ≤ length targets)%nat) by lia.
  destruct (draws_spec shuffle pooled_data targets Hperm Hdata Hcover
              (Z.to_nat batch_size) (data_shuffler pooled_data g))
    as (ds & s' & Hds & Hdlen & _).
  { by apply (data_shuffler_inv pooled_data targets). }
  exists ds.*2.*1, ds.*2.*2, s'.
  rewrite next_draws, Hds, bind_Ok_l, !length_fmap, Hdlen.
  split; [done|]. lia.
Qed.

End PreparedGenerator.

(** * The further properties on concrete inputs *)

(** Fourteen qualities from a vocabulary of thirteen. *)
Lemma generate_beyond_vocabulary_witness :
  generate_chroma_templates CT_QUALITIES CT_QUALITY_MAP 14 = Raise IndexError.
Proof.
  apply (generate_beyond_vocabulary CT_QUALITIES CT_QUALITY_MAP 14).
  - vm_compute. reflexivity.
  - lia.
Defined.

(** The major triad on root 3, moved on by 4 and moved back by 3. *)
Lemma rotate_composes_witness :
  rotate [0; 0; 0; 1; 0; 0; 0; 1; 0; 0; 1; 0] 4
  = rotate [1; 0; 0; 0; 1; 0; 0; 1; 0; 0; 0; 0] (3 + 4)
  ∧ (length [1; 0; 0; 0; 1; 0; 0; 1; 0; 0; 0; 0] = 12%nat →
     rotate [0; 0; 0; 1; 0; 0; 0; 1; 0; 0; 1; 0] (- 3)
     = Ok [1; 0; 0; 0; 1; 0; 0; 1; 0; 0; 0; 0]
     ∧ [0; 0; 0; 1; 0; 0; 0; 1; 0; 0; 1; 0]
       ≡ₚ [1; 0; 0; 0; 1; 0; 0; 1; 0; 0; 0; 0]).
Proof.
  apply (rotate_composes [1; 0; 0; 0; 1; 0; 0; 1; 0; 0; 0; 0] 3 4).
  reflexivity.
Defined.

(** No rows, batches of two. *)
Lemma empty_dataset_raises_witness :
  next reversing_shuffle ([] : list Z) ([] : list Z) 2
       (data_shuffler ([] : list Z) 0%nat)
  = Raise IndexError.
Proof.
  apply (empty_dataset_raises reversing_shuffle [] [] 2).
  - intros l g. apply reverse_Permutation.
  - reflexivity.
  - lia.
Defined.

(** Three rows in batches of three: the first pull is the whole dataset. *)
Lemma full_batch_is_epoch_witness :
  ∃ x_m y_m s',
    next reversing_shuffle [10; 20; 30] [1; 2; 3] 3
         (data_shuffler [10; 20; 30] 0%nat) = Ok (x_m, y_m, s')
    ∧ zip x_m y_m ≡ₚ zip [10; 20; 30] [1; 2; 3]
    ∧ x_m ≡ₚ [10; 20; 30]
    ∧ shuffler_inv [10; 20; 30] s'
    ∧ read_ptr s' = num_samples [10; 20; 30]
    ∧ np_random s'
      = np_random (reshuffle reversing_shuffle
                     (data_shuffler [10; 20; 30] 0%nat)).
Proof.
  apply (full_batch_is_epoch reversing_shuffle [10; 20; 30] [1; 2; 3] 3).
  - intros l g. apply reverse_Permutation.
  - vm_compute. split; [reflexivity | discriminate].
  - simpl. lia.
  - reflexivity.
  - vm_compute. split; [reflexivity|]. split; discriminate.
  - reflexivity.
Defined.

(** Three rows: one mapped to 0, one unknown to the map, one mapped to 12. *)
Lemma retained_rows_aligned_witness :
  zip [30] [12]
  = filter (λ p, 0 < p.2)
      (zip [10; 20; 30]
           (mapped_labels two_label_map ["C:maj"; "X"; "C:min"]%string))
  ∧ ∀ x l, (x, l) ∈ zip [30] [12]
      ↔ 0 < l ∧ ∃ i name, [10; 20; 30] !! i = Some x
                          ∧ ["C:maj"; "X"; "C:min"]%string !! i = Some name
                          ∧ two_label_map !! name = Some l.
Proof.
  apply (retained_rows_aligned [10; 20; 30] ["C:maj"; "X"; "C:min"]%string
           two_label_map [30] [12]).
  vm_compute. reflexivity.
Defined.

(** Two rows, of which the one labelled 12 is retained and bound to the
    no-chord template of a one-quality vocabulary. *)
Lemma prepared_targets_witness :
  ∃ prep,
    prepare_training_data CT_QUALITIES CT_QUALITY_MAP
      (λ d : list Z, Ok d) (λ _, ()) (λ _, ())
      [10; 20] ["C:maj"; "C:min"]%string two_label_map 50 = Ok prep
    ∧ train_data prep = [20]
    ∧ Forall (λ t, length t = 12%nat ∧ Forall (λ v, 0 <= v)%Q t
                   ∧ (row_sum t == 1)%Q)
             (train_targets prep).
Proof.
  destruct (prepare_training_data CT_QUALITIES CT_QUALITY_MAP
              (λ d : list Z, Ok d) (λ _, ()) (λ _, ())
              [10; 20] ["C:maj"; "C:min"]%string two_label_map 50)
    as [prep|e|] eqn:Hprep; [|vm_compute in Hprep; discriminate Hprep..].
  exists prep. split; [reflexivity|].
  destruct (prepared_targets CT_QUALITIES CT_QUALITY_MAP
              (λ d : list Z, Ok d) (λ _, ()) (λ _, ())
              [10; 20] ["C:maj"; "C:min"]%string two_label_map 50 prep)
    as (d & y & m & ts & Hf & Hpool & _ & _ & _ & _ & _ & _ & Hunit).
  - vm_compute. reflexivity.
  - exact Hprep.
  - split; [|exact Hunit].
    vm_compute in Hf. injection Hf as <- _.
    injection Hpool as <-. reflexivity.
Defined.


Example interrupted_run_console :
  console (train_network counter_next counter_step 0%nat
             (Some (3%nat, AtStep)) () 5 2 0%nat 0%nat).1
  = [Progress 0 0%nat; Progress 2 4%nat; StoppingEarly].
Proof. reflexivity. Qed.

(** The same run interrupted after the step of the fourth iteration: three
    losses, four updates. *)
Lemma state_after_run_witness :
  ∃ trace gk pk,
    iterate counter_next counter_step ()
      (Z.to_nat (completed (Some (3%nat, AtIncrement)) 5)) 0%nat 0%nat
      = Ok (trace, (gk, pk))
    ∧ (train_network counter_next counter_step 0%nat
         (Some (3%nat, AtIncrement)) () 5 2 0%nat 0%nat).2 = Ok trace.*2
    ∧ left_by counter_next counter_step () (Some (3%nat, AtIncrement)) 5
        gk pk
        (shuffler_state (train_network counter_next counter_step 0%nat
                           (Some (3%nat, AtIncrement)) () 5 2 0%nat 0%nat).1)
        (params (train_network counter_next counter_step 0%nat
                   (Some (3%nat, AtIncrement)) () 5 2 0%nat 0%nat).1).
Proof.
  apply (state_after_run counter_next counter_step 0%nat
           (Some (3%nat, AtIncrement)) () 5 2 0%nat 0%nat).
  - intros g. eexists. reflexivity.
  - intros b s. eexists. reflexivity.
  - lia.
  - lia.
Defined.

Example parameters_ahead_of_history :
  (λ r, (length <$> r.2, params r.1))
    (train_network counter_next counter_step 0%nat
       (Some (3%nat, AtIncrement)) () 5 2 0%nat 0%nat)
  = (Ok 3%nat, 4%nat).
Proof. reflexivity. Qed.

(** Print frequency 0, three iterations requested. *)
Lemma zero_print_frequency_witness :
  (train_network counter_next counter_step 0%nat None () 3 0 0%nat 0%nat).2
  = Raise ZeroDivisionError
  ∧ params (train_network counter_next counter_step 0%nat None () 3 0
              0%nat 0%nat).1 = 1%nat
  ∧ shuffler_state (train_network counter_next counter_step 0%nat None ()
                      3 0 0%nat 0%nat).1 = 1%nat
  ∧ console (train_network counter_next counter_step 0%nat None () 3 0
               0%nat 0%nat).1 = [].
Proof.
  apply (zero_print_frequency counter_next counter_step 0%nat None () 3 0
           0%nat 0%nat 0%nat 1%nat 0%nat 1%nat); reflexivity.
Defined.

(** The toy run with no iteration requested. *)
Lemma main_empty_history_witness : toy_main 0 None = Raise IndexError.
Proof.
  unfold toy_main.
  destruct (prepare_training_data CT_QUALITIES CT_QUALITY_MAP
              (λ d : list Z, Ok d) (λ d, foldr Z.add 0 d) (λ _, 1)
              [10; 20] ["C:maj"; "C:min"]%string two_label_map 1)
    as [prep|e|] eqn:Hprep; [|vm_compute in Hprep; discriminate Hprep..].
  apply (main_empty_history (Theano0 := toy_theano) CT_QUALITIES
           CT_QUALITY_MAP (λ d : list Z, Ok d) (λ d, foldr Z.add 0 d)
           (λ _, 1) reversing_shuffle (λ x_m, foldr Z.add 0 x_m) (λ _, 1)
           [10; 20] ["C:maj"; "C:min"]%string two_label_map 0 1 1 1 3
           0%nat None prep Hprep).
  left. reflexivity.
Defined.


(** The prepared toy data: one retained row, batches of two. *)
Lemma prepared_generator_pulls_witness :
  ∃ prep,
    prepare_training_data CT_QUALITIES CT_QUALITY_MAP
      (λ d : list Z, Ok d) (λ _, ()) (λ _, ())
      [10; 20] ["C:maj"; "C:min"]%string two_label_map 2 = Ok prep
    ∧ (0 < length (train_data prep))%nat
    ∧ length (train_targets prep) = length (train_data prep)
    ∧ ∃ x_m y_m s',
        next reversing_shuffle (train_data prep) (train_targets prep)
             (train_batch_size prep) (data_shuffler (train_data prep) 0%nat)
          = Ok (x_m, y_m, s')
        ∧ Z.of_nat (length x_m) = 2
        ∧ Z.of_nat (length y_m) = 2.
Proof.
  destruct (prepare_training_data CT_QUALITIES CT_QUALITY_MAP
              (λ d : list Z, Ok d) (λ _, ()) (λ _, ())
              [10; 20] ["C:maj"; "C:min"]%string two_label_map 2)
    as [prep|e|] eqn:Hprep; [|vm_compute in Hprep; discriminate Hprep..].
  exists prep. split; [reflexivity|].
  assert (Hdata : train_data prep = [20]).
  { vm_compute in Hprep. by injection Hprep as <-. }
  apply (prepared_generator_pulls CT_QUALITIES CT_QUALITY_MAP
           (λ d : list Z, Ok d) (λ _, ()) (λ _, ()) reversing_shuffle
           [10; 20] ["C:maj"; "C:min"]%string two_label_map 2 prep 0%nat).
  - intros l r. apply reverse_Permutation.
  - exact Hprep.
  - intros data' y_true Hf. vm_compute in Hf.
    injection Hf as <- _. by rewrite Hdata.
  - rewrite Hdata. vm_compute. discriminate.
  - lia.
Defined.
